(** * temp-mail: a shallow embedding of [src/index.js]

    The server keeps two collections (mailboxes and messages) in a document
    store, creates mailboxes on request, ingests inbound mail posted to a
    webhook and pushes a notification to the room of the owning mailbox.

    The embedding follows the source function by function.  JavaScript
    strings are sequences of UTF-16 code units; request bodies are JSON
    values; handlers are written in a small state-and-exception monad
    whose state is the store together with the events emitted so far. *)

From Stdlib Require Import List ZArith NArith Bool Lia String Ascii.
From Stdlib Require Import Permutation Sorted.
Import ListNotations.

Set Implicit Arguments.

(** ** JavaScript strings *)

Module JsString.

(** A UTF-16 code unit. *)
Definition code_unit := N.

Definition jsstring := list code_unit.

(** A source literal (ASCII only) as a JavaScript string. *)
Fixpoint u (s : string) : jsstring :=
  match s with
  | EmptyString => []
  | String a r => N_of_ascii a :: u r
  end.

Fixpoint eqb (s t : jsstring) : bool :=
  match s, t with
  | [], [] => true
  | a :: s', b :: t' => N.eqb a b && eqb s' t'
  | _, _ => false
  end.

(** WhiteSpace and LineTerminator code points, the set removed by
    [String.prototype.trim]. *)
Definition is_line_terminator (c : code_unit) : bool :=
  (N.eqb c 10 || N.eqb c 13 || N.eqb c 8232 || N.eqb c 8233)%N%bool.

Definition is_white_space (c : code_unit) : bool :=
  (N.eqb c 9 || N.eqb c 11 || N.eqb c 12 || N.eqb c 32 || N.eqb c 160
   || N.eqb c 5760 || (N.leb 8192 c && N.leb c 8202)
   || N.eqb c 8239 || N.eqb c 8287 || N.eqb c 12288 || N.eqb c 65279)%bool.

Definition is_trimmed_char (c : code_unit) : bool :=
  (is_white_space c || is_line_terminator c)%bool.

Fixpoint trim_start (s : jsstring) : jsstring :=
  match s with
  | [] => []
  | c :: r => if is_trimmed_char c then trim_start r else s
  end.

(** [str.trim()] *)
Definition trim (s : jsstring) : jsstring :=
  rev (trim_start (rev (trim_start s))).

(** [pieces.join(",")] on strings that are already converted. *)
Fixpoint join_comma (pieces : list jsstring) : jsstring :=
  match pieces with
  | [] => []
  | [p] => p
  | p :: rest => p ++ u "," ++ join_comma rest
  end.

End JsString.

Import JsString.

(** ** JavaScript values as they arrive in a parsed request body *)

(** Of a number the handlers observe two things only: whether it is truthy
    and its [ToString] rendering.  A number is represented by these two
    observations. *)
Record number := { num_truthy : bool; num_text : jsstring }.

#[warnings="-register-all"]
Inductive value :=
| VUndefined
| VNull
| VBool (b : bool)
| VNum (n : number)
| VStr (s : jsstring)
| VArr (elems : list value)
| VObj (props : list (jsstring * value)).

(** Abrupt completion of an expression: [Throw] is a raised exception. *)
Inductive completion (A : Type) :=
| Normal (a : A)
| Throw.

Arguments Normal {A} a.
Arguments Throw {A}.

(** [ToBoolean]: objects and arrays are always truthy. *)
Definition truthy (v : value) : bool :=
  match v with
  | VUndefined | VNull => false
  | VBool b => b
  | VNum n => num_truthy n
  | VStr s => match s with [] => false | _ => true end
  | VArr _ | VObj _ => true
  end.

(** [a || b] *)
Definition or (a b : value) : value := if truthy a then a else b.

Infix "|||" := or (at level 50, left associativity).

Fixpoint own_property (name : jsstring) (props : list (jsstring * value))
  : option value :=
  match props with
  | [] => None
  | (k, v) :: rest => if eqb k name then Some v else own_property name rest
  end.

(** [payload.name] for the field names the webhook probes.  None of them
    is defined on a prototype, so anything but an own property of a plain
    object reads as [undefined]. *)
Definition get (payload : value) (name : string) : value :=
  match payload with
  | VObj props =>
      match own_property (u name) props with
      | Some v => v
      | None => VUndefined
      end
  | _ => VUndefined
  end.

(** [String(value)].  An array is joined with commas, [null] and
    [undefined] elements rendering as the empty string.  A parsed object
    has no callable property of its own: if it carries an own [toString]
    key the conversion finds no usable method and raises a [TypeError];
    otherwise [Object.prototype.toString] answers.  An engine walks
    nested arrays on its call stack and raises a [RangeError] when the
    nesting exhausts it; that limit is not part of this definition, which
    converts arrays of any depth. *)
Fixpoint ToString (v : value) : completion jsstring :=
  match v with
  | VUndefined => Normal (u "undefined")
  | VNull => Normal (u "null")
  | VBool true => Normal (u "true")
  | VBool false => Normal (u "false")
  | VNum n => Normal (num_text n)
  | VStr s => Normal s
  | VArr elems =>
      let fix pieces (l : list value) : completion (list jsstring) :=
        match l with
        | [] => Normal []
        | x :: r =>
            let px := match x with
                      | VUndefined | VNull => Normal []
                      | _ => ToString x
                      end in
            match px with
            | Throw => Throw
            | Normal p =>
                match pieces r with
                | Throw => Throw
                | Normal ps => Normal (p :: ps)
                end
            end
        end in
      match pieces elems with
      | Throw => Throw
      | Normal ps => Normal (join_comma ps)
      end
  | VObj props =>
      match own_property (u "toString") props with
      | Some _ => Throw
      | None => Normal (u "[object Object]")
      end
  end.

(** ** The regular expression [/<(.+?)>/] *)

Module AngleRegex.

Definition lt : code_unit := 60%N.
Definition gt : code_unit := 62%N.

(** The lazy [.+?] after its first character: stop at the first [>],
    fail on a line terminator ([.] does not match one) or at the end. *)
Fixpoint lazy_rest (s : jsstring) : option jsstring :=
  match s with
  | [] => None
  | c :: r =>
      if N.eqb c gt then Some []
      else if is_line_terminator c then None
      else option_map (cons c) (lazy_rest r)
  end.

(** An attempt at one start position: [<], one character that is not a
    line terminator, then [lazy_rest]. *)
Definition match_here (s : jsstring) : option jsstring :=
  match s with
  | c :: c1 :: r =>
      if N.eqb c lt then
        if is_line_terminator c1 then None
        else option_map (cons c1) (lazy_rest r)
      else None
  | _ => None
  end.

(** [str.match(/<(.+?)>/)]: the first start position that matches wins;
    the result is capture group 1. *)
Fixpoint search (s : jsstring) : option jsstring :=
  match match_here s with
  | Some c => Some c
  | None =>
      match s with
      | [] => None
      | _ :: r => search r
      end
  end.

End AngleRegex.

(** ** Helpers of [index.js] *)

Definition chars : jsstring := u "abcdefghijklmnopqrstuvwxyz0123456789".

(** [local += chars[k]]: an index outside the string reads [undefined],
    which concatenates as the text "undefined". *)
Definition append_char_at (local : jsstring) (k : nat) : jsstring :=
  match nth_error chars k with
  | Some c => local ++ [c]
  | None => local ++ u "undefined"
  end.

(** The loop of [generateRandomLocalPart]; [random_index i] is the value
    of [Math.floor(Math.random() * chars.length)] at iteration [i]. *)
Fixpoint generate_loop (random_index : nat -> nat) (remaining i : nat)
    (local : jsstring) : jsstring :=
  match remaining with
  | O => local
  | S n => generate_loop random_index n (S i)
                         (append_char_at local (random_index i))
  end.

(** [generateRandomLocalPart(length = 10)]; [None] is an omitted
    argument. *)
Definition default_length (length : option nat) : nat :=
  match length with Some n => n | None => 10 end.

Definition generateRandomLocalPart (random_index : nat -> nat)
    (length : option nat) : jsstring :=
  let length := default_length length in
  generate_loop random_index length 0 [].

Definition extractEmail (value : value) : completion jsstring :=
  if negb (truthy value) then Normal []
  else
    match ToString value with
    | Throw => Throw
    | Normal s =>
        let str := trim s in
        match AngleRegex.search str with
        | Some m1 => Normal m1
        | None => Normal str
        end
    end.

(** ** Documents, store and environment *)

(** An [ObjectId] is represented by its hexadecimal rendering, so that
    [_id.toString()] is the identity.  A [Date] is its time value in
    milliseconds. *)
Definition ObjectId := jsstring.
Definition Date := Z.

Module mailboxSchema.
Record doc := {
  _id : ObjectId;
  address : jsstring;
  userId : option jsstring;
  createdAt : Date;
  expiresAt : Date;
  isActive : bool
}.
End mailboxSchema.

Module messageSchema.
Record doc := {
  _id : ObjectId;
  mailboxId : ObjectId;
  from : jsstring;
  to : jsstring;
  subject : jsstring;
  text : jsstring;
  html : jsstring;
  receivedAt : Date;
  isRead : bool
}.
End messageSchema.

(** A field of an emitted object literal. *)
Inductive field :=
| FStr (s : jsstring)
| FDate (d : Date).

(** [io.to(room).emit(event, payload)] *)
Record Emit := {
  room : jsstring;
  event : string;
  payload : list (string * field)
}.

(** The state the handlers act on: both collections, in insertion order,
    and the events emitted so far. *)
Record World := {
  mailboxes : list mailboxSchema.doc;
  messages : list messageSchema.doc;
  emitted : list Emit
}.

(** What one handler invocation draws from its surroundings: successive
    clock readings, successive values of
    [Math.floor(Math.random() * chars.length)], the identifier generated
    for a new document, and whether the store answers reads and writes. *)
Record Oracle := {
  date_now : nat -> Date;
  random_index : nat -> nat;
  objectId : ObjectId;
  read_ok : bool;
  write_ok : bool
}.

(** The casts Mongoose applies and the source relies on: a non-string
    value stored on a [String] path, and a route parameter used as an
    [ObjectId].  [None] is a failed cast. *)
Class Mongoose := {
  castString : value -> option jsstring;
  castObjectId : jsstring -> option ObjectId
}.

(** [process.env] *)
Record Env := {
  MAIL_DOMAIN : option jsstring;
  MAILBOX_TTL_MINUTES : option jsstring
}.

(** ** Handler monad: state over [World], exceptions as [Throw] *)

Definition M (A : Type) := World -> completion A * World.

Definition ret {A} (a : A) : M A := fun w => (Normal a, w).

Definition bind {A B} (m : M A) (k : A -> M B) : M B :=
  fun w =>
    match m w with
    | (Normal a, w') => k a w'
    | (Throw, w') => (Throw, w')
    end.

(** An expression that may raise, evaluated inside a handler. *)
Definition lift {A} (c : completion A) : M A := fun w => (c, w).

(** [try { body } catch (err) { handler }]; the handler runs in the state
    the body left behind. *)
Definition try_catch {A} (body handler : M A) : M A :=
  fun w =>
    match body w with
    | (Normal a, w') => (Normal a, w')
    | (Throw, w') => handler w'
    end.

Notation "x <- m ;; k" := (bind m (fun x => k))
  (at level 61, m at next level, right associativity).

(** ** HTTP responses *)

Record FormattedMessage := {
  f_id : jsstring;
  f_from : jsstring;
  f_to : jsstring;
  f_subject : jsstring;
  f_text : jsstring;
  f_html : jsstring;
  f_receivedAt : Date;
  f_isRead : bool
}.

Inductive Body :=
| JStatus (status : string)
| JError (error : string)
| JMailbox (id address : jsstring) (expiresAt : Date)
| JMessages (formatted : list FormattedMessage).

(** [res.status(code).json(body)] *)
Record Response := { status_code : nat; json : Body }.

(** ** Models *)

Module Mailbox.
Import mailboxSchema.


(** [Mailbox.create({ address, expiresAt })].  [expiresAt] is [None] for
    an invalid date, which fails validation.  The unique index on
    [address] rejects a duplicate.  [createdAt] takes the schema default
    [Date.now], read when the document is built, after the handler's own
    [new Date()]. *)
Definition create (o : Oracle) (address : jsstring) (expiresAt : option Date)
  : M doc :=
  fun w =>
    match expiresAt with
    | None => (Throw, w)
    | Some e =>
        if negb (write_ok o) then (Throw, w)
        else if existsb (fun mb => eqb mb.(mailboxSchema.address) address)
                        (mailboxes w) then (Throw, w)
        else
          let mb := {| _id := objectId o; address := address;
                       userId := None; createdAt := date_now o 1;
                       expiresAt := e; isActive := true |} in
          (Normal mb,
           {| mailboxes := mailboxes w ++ [mb]; messages := messages w;
              emitted := emitted w |})
    end.

(** [Mailbox.findOne({ address, isActive: true })] *)
Definition findOne (o : Oracle) (address : jsstring) : M (option doc) :=
  fun w =>
    if negb (read_ok o) then (Throw, w)
    else
      (Normal (find (fun mb => eqb mb.(mailboxSchema.address) address
                               && Bool.eqb mb.(isActive) true)
                    (mailboxes w)),
       w).

End Mailbox.

Module Message.
Import messageSchema.

Section WithMongoose.
Context {mongoose : Mongoose}.

(** A value assigned to a [String] path. *)
Definition cast (v : value) : option jsstring :=
  match v with
  | VStr s => Some s
  | _ => castString v
  end.

(** [Message.create({ mailboxId, from, to, subject, text, html })];
    [receivedAt] and [isRead] take their schema defaults. *)
Definition create (o : Oracle) (mailboxId : ObjectId) (from to : jsstring)
    (subject text html : value) : M doc :=
  fun w =>
    match cast subject, cast text, cast html with
    | Some s, Some t, Some h =>
        if negb (write_ok o) then (Throw, w)
        else
          let m := {| _id := objectId o; mailboxId := mailboxId;
                      from := from; to := to; subject := s; text := t;
                      html := h; receivedAt := date_now o 0;
                      isRead := false |} in
          (Normal m,
           {| mailboxes := mailboxes w; messages := messages w ++ [m];
              emitted := emitted w |})
    | _, _, _ => (Throw, w)
    end.

(** [.sort({ receivedAt: -1 })] as an insertion sort. *)
Fixpoint insert_desc (m : doc) (sorted : list doc) : list doc :=
  match sorted with
  | [] => [m]
  | x :: r =>
      if Z.leb (receivedAt x) (receivedAt m) then m :: sorted
      else x :: insert_desc m r
  end.

Fixpoint sort_desc (l : list doc) : list doc :=
  match l with
  | [] => []
  | m :: r => insert_desc m (sort_desc r)
  end.

(** [Message.find({ mailboxId: id }).sort({ receivedAt: -1 }).lean()] *)
Definition find_sorted (o : Oracle) (id : jsstring) : M (list doc) :=
  fun w =>
    match castObjectId id with
    | None => (Throw, w)
    | Some oid =>
        if negb (read_ok o) then (Throw, w)
        else
          (Normal (sort_desc (filter (fun m => eqb (mailboxId m) oid)
                                     (messages w))),
           w)
    end.

(** [Message.findById(id).lean()] *)
Definition findById (o : Oracle) (id : jsstring) : M (option doc) :=
  fun w =>
    match castObjectId id with
    | None => (Throw, w)
    | Some oid =>
        if negb (read_ok o) then (Throw, w)
        else (Normal (find (fun m => eqb (_id m) oid) (messages w)), w)
    end.

End WithMongoose.
End Message.

(** [io.to(room).emit(event, payload)] *)
Definition emit (room : jsstring) (event : string)
    (payload : list (string * field)) : M unit :=
  fun w =>
    (Normal tt,
     {| mailboxes := mailboxes w; messages := messages w;
        emitted := emitted w
                   ++ [{| room := room; event := event;
                          payload := payload |}] |}).

(** ** Routes *)

(** *** Numbers

    A JavaScript number is an IEEE 754 double.  The finite ones are kept
    as an exact value [m * 2^e]; arithmetic computes the exact fraction
    and rounds it to the nearest double, ties to even.  The sign of zero
    is not represented: nothing in the handlers observes it. *)

Module Double.

Inductive t :=
| NaN
| Inf (negative : bool)
| Fin (m e : Z).

(** The value [m * 2^e] as a fraction [n / d] with [d > 0]. *)
Definition frac (m e : Z) : Z * Z :=
  if (0 <=? e)%Z then (m * 2 ^ e, 1)%Z else (m, 2 ^ (- e))%Z.

(** [d * 2^k <= a], for an exponent of either sign. *)
Definition ge_scaled (a d k : Z) : bool :=
  if (0 <=? k)%Z then (d * 2 ^ k <=? a)%Z else (d <=? a * 2 ^ (- k))%Z.

(** The double nearest to [n / d], for [d > 0].  [k] is the binary
    exponent of the fraction, [e] the exponent of the last of its 53
    bits, not below that of the subnormals; [q] and [r] are the fraction
    in units of [2^e] and what is left of it. *)
Definition round (n d : Z) : t :=
  if (n =? 0)%Z then Fin 0 0
  else
    let a := Z.abs n in
    let k0 := (Z.log2 a - Z.log2 d)%Z in
    let k := if ge_scaled a d k0 then k0 else (k0 - 1)%Z in
    let e := Z.max (k - 52) (-1074) in
    let num := if (0 <=? e)%Z then a else (a * 2 ^ (- e))%Z in
    let den := if (0 <=? e)%Z then (d * 2 ^ e)%Z else d in
    let q := (num / den)%Z in
    let r := (num mod den)%Z in
    let M := if (2 * r <? den)%Z then q
             else if (den <? 2 * r)%Z then (q + 1)%Z
             else if Z.even q then q else (q + 1)%Z in
    if (2 ^ 1024 <=? M * 2 ^ e)%Z then Inf (n <? 0)%Z
    else Fin (Z.sgn n * M) e.

Definition of_Z (z : Z) : t := round z 1.

Definition opp (x : t) : t :=
  match x with
  | NaN => NaN
  | Inf negative => Inf (negb negative)
  | Fin m e => Fin (- m) e
  end.

(** [x * y] *)
Definition mul (x y : t) : t :=
  match x, y with
  | NaN, _ | _, NaN => NaN
  | Inf a, Inf b => Inf (xorb a b)
  | Inf a, Fin m _ | Fin m _, Inf a =>
      if (m =? 0)%Z then NaN else Inf (xorb a (m <? 0)%Z)
  | Fin m1 e1, Fin m2 e2 =>
      let (n1, d1) := frac m1 e1 in
      let (n2, d2) := frac m2 e2 in
      round (n1 * n2) (d1 * d2)
  end.

(** [x + y] *)
Definition add (x y : t) : t :=
  match x, y with
  | NaN, _ | _, NaN => NaN
  | Inf a, Inf b => if Bool.eqb a b then Inf a else NaN
  | Inf a, Fin _ _ | Fin _ _, Inf a => Inf a
  | Fin m1 e1, Fin m2 e2 =>
      let (n1, d1) := frac m1 e1 in
      let (n2, d2) := frac m2 e2 in
      round (n1 * d2 + n2 * d1) (d1 * d2)
  end.

(** The time value of [new Date(x)]: the number truncated towards
    zero; [None], an invalid date, when the number is not finite or lies
    more than 8.64e15 milliseconds from the epoch. *)
Definition TimeClip (x : t) : option Z :=
  match x with
  | Fin m e =>
      let (n, d) := frac m e in
      if (8640000000000000 * d <? Z.abs n)%Z then None
      else Some (Z.quot n d)
  | _ => None
  end.

End Double.

(** [Number(str)] on a string, the grammar of [StringNumericLiteral]:
    white space around the literal is skipped and the empty string is
    zero; a literal is [0x], [0o] or [0b] and digits, or an optional sign
    and [Infinity] or decimal digits with an optional fraction and an
    optional exponent; anything else is [NaN].  The value is rounded to
    the nearest double. *)
Module StringToNumber.

Definition digit_of (base : Z) (c : code_unit) : option Z :=
  let c := Z.of_N c in
  let v := if ((48 <=? c) && (c <=? 57))%Z%bool then Some (c - 48)%Z
           else if ((97 <=? c) && (c <=? 122))%Z%bool then Some (c - 87)%Z
           else if ((65 <=? c) && (c <=? 90))%Z%bool then Some (c - 55)%Z
           else None in
  match v with
  | Some z => if (z <? base)%Z then Some z else None
  | None => None
  end.

(** The longest prefix of digits, read onto [acc]: the value, the
    number of digits read and what follows them. *)
Fixpoint digits (base acc len : Z) (s : jsstring) : Z * Z * jsstring :=
  match s with
  | [] => (acc, len, [])
  | c :: r =>
      match digit_of base c with
      | Some v => digits base (acc * base + v)%Z (len + 1)%Z r
      | None => (acc, len, s)
      end
  end.

(** A whole literal of digits in the given base. *)
Definition integer (base : Z) (s : jsstring) : Double.t :=
  match digits base 0 0 s with
  | (v, len, []) => if (0 <? len)%Z then Double.of_Z v else Double.NaN
  | _ => Double.NaN
  end.

(** What may follow the mantissa: nothing, or [e] or [E], an optional
    sign and digits to the end.  [None] is a malformed exponent. *)
Definition exponent (s : jsstring) : option Z :=
  match s with
  | [] => Some 0%Z
  | c :: r =>
      if (N.eqb c 101 || N.eqb c 69)%bool then
        let (negative, r') :=
          match r with
          | c' :: r'' =>
              if N.eqb c' 43 then (false, r'')
              else if N.eqb c' 45 then (true, r'')
              else (false, r)
          | [] => (false, r)
          end in
        match digits 10 0 0 r' with
        | (v, len, []) =>
            if (0 <? len)%Z then Some (if negative then (- v)%Z else v)
            else None
        | _ => None
        end
      else None
  end.

(** The digits [f] scaled by a power of ten. *)
Definition scale (f p : Z) : Double.t :=
  if (0 <=? p)%Z then Double.round (f * 10 ^ p) 1
  else Double.round f (10 ^ (- p)).

Definition unsigned_decimal (s : jsstring) : Double.t :=
  if eqb s (u "Infinity") then Double.Inf false
  else
    match digits 10 0 0 s with
    | (i, ilen, r) =>
        match
          match r with
          | c :: r1 =>
              if N.eqb c 46 then digits 10 i 0 r1 else (i, 0%Z, r)
          | [] => (i, 0%Z, r)
          end
        with
        | (f, flen, r') =>
            if (ilen + flen =? 0)%Z then Double.NaN
            else
              match exponent r' with
              | Some x => scale f (x - flen)
              | None => Double.NaN
              end
        end
    end.

Definition literal (str : jsstring) : Double.t :=
  match str with
  | [] => Double.Fin 0 0
  | c0 :: rest =>
      match rest with
      | c1 :: r =>
          if (N.eqb c0 48 && (N.eqb c1 120 || N.eqb c1 88))%bool
          then integer 16 r
          else if (N.eqb c0 48 && (N.eqb c1 111 || N.eqb c1 79))%bool
          then integer 8 r
          else if (N.eqb c0 48 && (N.eqb c1 98 || N.eqb c1 66))%bool
          then integer 2 r
          else if N.eqb c0 43 then unsigned_decimal rest
          else if N.eqb c0 45 then Double.opp (unsigned_decimal rest)
          else unsigned_decimal str
      | [] => unsigned_decimal str
      end
  end.

End StringToNumber.

Definition Number (s : jsstring) : Double.t :=
  StringToNumber.literal (trim s).

(** [process.env.MAIL_DOMAIN || "example.com"] *)
Definition mail_domain (env : Env) : jsstring :=
  match MAIL_DOMAIN env with
  | Some (c :: r) => c :: r
  | _ => u "example.com"
  end.

(** [Number(process.env.MAILBOX_TTL_MINUTES || 60)] *)
Definition ttlMinutes (env : Env) : Double.t :=
  match MAILBOX_TTL_MINUTES env with
  | Some (c :: r) => Number (c :: r)
  | _ => Double.of_Z 60
  end.

(** [new Date(now.getTime() + ttlMinutes * 60 * 1000)]; [None] is an
    invalid date. *)
Definition expiry_date (now : Date) (ttlMinutes : Double.t) : option Date :=
  Double.TimeClip
    (Double.add (Double.of_Z now)
                (Double.mul (Double.mul ttlMinutes (Double.of_Z 60))
                            (Double.of_Z 1000))).

Section Routes.
Context {mongoose : Mongoose}.

(** [POST /api/mailbox] *)
Definition createMailbox (o : Oracle) (env : Env) : M Response :=
  try_catch
    (let domain := mail_domain env in
     let localPart := generateRandomLocalPart (random_index o) None in
     let address := localPart ++ u "@" ++ domain in
     let ttlMinutes := ttlMinutes env in
     let now := date_now o 0 in
     let expiresAt := expiry_date now ttlMinutes in
     mailbox <- Mailbox.create o address expiresAt ;;
     ret {| status_code := 200;
            json := JMailbox mailbox.(mailboxSchema._id)
                             mailbox.(mailboxSchema.address)
                             mailbox.(mailboxSchema.expiresAt) |})
    (ret {| status_code := 500; json := JError "Failed to create mailbox" |}).

Definition format (m : messageSchema.doc) : FormattedMessage :=
  {| f_id := m.(messageSchema._id);
     f_from := m.(messageSchema.from);
     f_to := m.(messageSchema.to);
     f_subject := m.(messageSchema.subject);
     f_text := m.(messageSchema.text);
     f_html := m.(messageSchema.html);
     f_receivedAt := m.(messageSchema.receivedAt);
     f_isRead := m.(messageSchema.isRead) |}.

(** [GET /api/mailbox/:id/messages] *)
Definition listMessages (o : Oracle) (id : jsstring) : M Response :=
  try_catch
    (messages <- Message.find_sorted o id ;;
     let formatted := map format messages in
     ret {| status_code := 200; json := JMessages formatted |})
    (ret {| status_code := 500; json := JError "Failed to fetch messages" |}).

(** The alias chains of the webhook. *)
Definition rawTo (payload : value) : value :=
  get payload "to_email" ||| get payload "to" ||| get payload "recipient"
  ||| get payload "toAddress" ||| VStr [].

Definition rawFrom (payload : value) : value :=
  get payload "from_email" ||| get payload "from" ||| get payload "sender"
  ||| get payload "fromAddress" ||| VStr [].

Definition rawSubject (payload : value) : value :=
  get payload "subject" ||| get payload "title"
  ||| get payload "mail_subject" ||| VStr [].

Definition rawText (payload : value) : value :=
  get payload "text_body" ||| get payload "text" ||| get payload "body_text"
  ||| get payload "body" ||| VStr [].

Definition rawHtml (payload : value) : value :=
  get payload "html_body" ||| get payload "html" ||| get payload "body_html"
  ||| VStr [].

(** The object literal sent with the [newMessage] event. *)
Definition newMessage_payload (message : messageSchema.doc)
  : list (string * field) :=
  [ ("id", FStr message.(messageSchema._id));
    ("from", FStr message.(messageSchema.from));
    ("to", FStr message.(messageSchema.to));
    ("subject", FStr message.(messageSchema.subject));
    ("text", FStr message.(messageSchema.text));
    ("receivedAt", FDate message.(messageSchema.receivedAt)) ]%string.

(** [POST /webhooks/inbound-email]; [body] is [req.body]. *)
Definition inboundEmail (o : Oracle) (body : value) : M Response :=
  try_catch
    (let payload := body ||| VObj [] in
     let rawTo := rawTo payload in
     let rawFrom := rawFrom payload in
     let subject := rawSubject payload in
     let text := rawText payload in
     let html := rawHtml payload in
     toEmail <- lift (extractEmail rawTo) ;;
     fromEmail <- lift (extractEmail rawFrom) ;;
     match toEmail with
     | [] => ret {| status_code := 200;
                    json := JStatus "ignored_no_to_email" |}
     | _ :: _ =>
         mailbox <- Mailbox.findOne o toEmail ;;
         match mailbox with
         | None => ret {| status_code := 200;
                          json := JStatus "ignored_no_mailbox" |}
         | Some mailbox =>
             message <- Message.create o mailbox.(mailboxSchema._id)
                          (match fromEmail with
                           | [] => u "unknown@unknown"
                           | _ :: _ => fromEmail
                           end)
                          toEmail
                          (subject ||| VStr []) (text ||| VStr [])
                          (html ||| VStr []) ;;
             _ <- emit (u "mailbox:" ++ mailbox.(mailboxSchema._id))
                       "newMessage" (newMessage_payload message) ;;
             ret {| status_code := 200; json := JStatus "ok" |}
         end
     end)
    (ret {| status_code := 500; json := JError "Webhook error" |}).

End Routes.

(** ** The single-message route *)

(** The object [GET /api/messages/:id] sends for a message. *)
Record DetailedMessage := {
  d_id : jsstring;
  d_mailboxId : ObjectId;
  d_from : jsstring;
  d_to : jsstring;
  d_subject : jsstring;
  d_text : jsstring;
  d_html : jsstring;
  d_receivedAt : Date;
  d_isRead : bool
}.

Inductive DetailBody :=
| DError (error : string)
| DMessage (message : DetailedMessage).

Record DetailResponse := { detail_status : nat; detail_json : DetailBody }.

Definition detailed (msg : messageSchema.doc) : DetailedMessage :=
  {| d_id := msg.(messageSchema._id);
     d_mailboxId := msg.(messageSchema.mailboxId);
     d_from := msg.(messageSchema.from);
     d_to := msg.(messageSchema.to);
     d_subject := msg.(messageSchema.subject);
     d_text := msg.(messageSchema.text);
     d_html := msg.(messageSchema.html);
     d_receivedAt := msg.(messageSchema.receivedAt);
     d_isRead := msg.(messageSchema.isRead) |}.

Section MessageRoute.
Context {mongoose : Mongoose}.

(** [GET /api/messages/:id] *)
Definition getMessage (o : Oracle) (id : jsstring) : M DetailResponse :=
  try_catch
    (msg <- Message.findById o id ;;
     match msg with
     | None => ret {| detail_status := 404;
                      detail_json := DError "Message not found" |}
     | Some msg => ret {| detail_status := 200;
                          detail_json := DMessage (detailed msg) |}
     end)
    (ret {| detail_status := 500; detail_json := DError "Failed to get message" |}).

End MessageRoute.

(** ** Socket rooms *)

Module Socket.

Definition SocketId := jsstring.

(** Which socket is in which room. *)
Definition Rooms := list (SocketId * jsstring).

Definition member (socket : SocketId) (room : jsstring) (rooms : Rooms) : bool :=
  existsb (fun p => (eqb (fst p) socket && eqb (snd p) room)%bool) rooms.

(** [socket.join(room)]; joining a room twice changes nothing. *)
Definition join (socket : SocketId) (room : jsstring) (rooms : Rooms) : Rooms :=
  if member socket room rooms then rooms else (socket, room) :: rooms.

(** The [joinMailbox] listener.  The template literal converts the
    identifier the client sent with [ToString]; a conversion that raises
    leaves the listener before the join. *)
Definition joinMailbox (socket : SocketId) (mailboxId : value) (rooms : Rooms)
  : completion Rooms :=
  match ToString mailboxId with
  | Throw => Throw
  | Normal id => Normal (join socket (u "mailbox:" ++ id) rooms)
  end.

(** The sockets [io.to(e.room).emit(...)] reaches. *)
Definition recipients (rooms : Rooms) (e : Emit) : list SocketId :=
  map fst (filter (fun p => eqb (snd p) (room e)) rooms).

End Socket.

(** ** An instance of the casts *)

Definition is_hex (c : code_unit) : bool :=
  ((N.leb 48 c && N.leb c 57) || (N.leb 65 c && N.leb c 70)
   || (N.leb 97 c && N.leb c 102))%bool.

Definition lower_hex (c : code_unit) : code_unit :=
  if (N.leb 65 c && N.leb c 70)%bool then (c + 32)%N else c.

(** Strings pass through, numbers and booleans are rendered, an object
    stands for its [_id] if that is a non-empty string, and arrays and
    other objects do not cast.  A route parameter is an [ObjectId] when it
    consists of 24 hexadecimal digits, read without regard to case. *)
#[export] Instance mongoose_casts : Mongoose := {
  castString v :=
    match v with
    | VStr s => Some s
    | VNum n => Some (num_text n)
    | VBool true => Some (u "true")
    | VBool false => Some (u "false")
    | VObj props =>
        match own_property (u "_id") props with
        | Some (VStr (c :: s)) => Some (c :: s)
        | _ => None
        end
    | _ => None
    end;
  castObjectId s :=
    if (Nat.eqb (List.length s) 24 && forallb is_hex s)%bool
    then Some (map lower_hex s) else None
}.

(** ** Vocabulary of the properties *)

(** The characters a generated local part may contain. *)
Definition is_lower_alnum (c : code_unit) : bool :=
  ((N.leb 97 c && N.leb c 122) || (N.leb 48 c && N.leb c 57))%bool.

Definition lower_alnum (s : jsstring) : Prop :=
  Forall (fun c => is_lower_alnum c = true) s.

Module AngleForm.
Import AngleRegex.

Definition no_line_terminator (s : jsstring) : Prop :=
  Forall (fun c => is_line_terminator c = false) s.

(** The shape the expression recognises: some text, [<], a non-empty
    capture on one line, [>], some text. *)
Definition bracketed (s pre c post : jsstring) : Prop :=
  s = pre ++ [lt] ++ c ++ [gt] ++ post
  /\ c <> [] /\ no_line_terminator c.

End AngleForm.

Module DoubleValue.


(** The whole number a double is, if it is one. *)
Definition whole_value (x : Double.t) : option Z :=
  match x with
  | Double.Fin m e =>
      let (n, d) := Double.frac m e in
      if (n mod d =? 0)%Z then Some (n / d)%Z else None
  | _ => None
  end.

End DoubleValue.

(** [ttlMinutes * 60 * 1000], when it is a whole number of
    milliseconds. *)
Definition ttl_milliseconds (env : Env) : option Z :=
  DoubleValue.whole_value
    (Double.mul (Double.mul (ttlMinutes env) (Double.of_Z 60))
                (Double.of_Z 1000)).




(** A string that does not begin with a character [trim] removes. *)
Definition clean_head (s : jsstring) : Prop :=
  match s with
  | [] => True
  | c :: _ => is_trimmed_char c = false
  end.

(** The values [String(...)] cannot convert: an object with an own
    [toString] key, and an array that has such a value among its
    elements. *)
Inductive unprintable : value -> Prop :=
| unprintable_object props v :
    own_property (u "toString") props = Some v ->
    unprintable (VObj props)
| unprintable_array elems x :
    In x elems -> unprintable x -> unprintable (VArr elems).

Module MessageOrder.

(** Newest first: no later element is more recent. *)
Definition newer_or_equal (a b : messageSchema.doc) : Prop :=
  (messageSchema.receivedAt b <= messageSchema.receivedAt a)%Z.

End MessageOrder.

(** The destination and sender addresses after normalisation. *)
Definition normalized_to (body : value) : completion jsstring :=
  extractEmail (rawTo (body ||| VObj [])).

Definition normalized_from (body : value) : completion jsstring :=
  extractEmail (rawFrom (body ||| VObj [])).

(** The lookup condition of [Mailbox.findOne]. *)
Definition active_for (address : jsstring) (mb : mailboxSchema.doc) : bool :=
  (JsString.eqb mb.(mailboxSchema.address) address
   && Bool.eqb mb.(mailboxSchema.isActive) true)%bool.

Definition webhook_error : Response :=
  {| status_code := 500; json := JError "Webhook error" |}.

Definition acknowledged (status : string) : Response :=
  {| status_code := 200; json := JStatus status |}.

Section InboundOutcome.
Context {mongoose : Mongoose}.
Variables (o : Oracle) (body : value) (w : World).

(** The document [Message.create] builds in the webhook. *)
Definition ingested (mb : mailboxSchema.doc) (toEmail fromEmail : jsstring)
    (s t h : jsstring) : messageSchema.doc :=
  {| messageSchema._id := objectId o;
     messageSchema.mailboxId := mb.(mailboxSchema._id);
     messageSchema.from := match fromEmail with
                           | [] => u "unknown@unknown"
                           | _ :: _ => fromEmail
                           end;
     messageSchema.to := toEmail;
     messageSchema.subject := s;
     messageSchema.text := t;
     messageSchema.html := h;
     messageSchema.receivedAt := date_now o 0;
     messageSchema.isRead := false |}.

Definition casts (s t h : jsstring) : Prop :=
  Message.cast (rawSubject (body ||| VObj []) ||| VStr []) = Some s
  /\ Message.cast (rawText (body ||| VObj []) ||| VStr []) = Some t
  /\ Message.cast (rawHtml (body ||| VObj []) ||| VStr []) = Some h.

(** Every path through the handler, with the response it sends and the
    state it leaves. *)
Inductive Outcome : Response -> World -> Prop :=
| Out_to_raises :
    normalized_to body = Throw ->
    Outcome webhook_error w
| Out_from_raises toEmail :
    normalized_to body = Normal toEmail ->
    normalized_from body = Throw ->
    Outcome webhook_error w
| Out_no_to fromEmail :
    normalized_to body = Normal [] ->
    normalized_from body = Normal fromEmail ->
    Outcome (acknowledged "ignored_no_to_email") w
| Out_read_fails toEmail fromEmail :
    normalized_to body = Normal toEmail -> toEmail <> [] ->
    normalized_from body = Normal fromEmail ->
    read_ok o = false ->
    Outcome webhook_error w
| Out_no_mailbox toEmail fromEmail :
    normalized_to body = Normal toEmail -> toEmail <> [] ->
    normalized_from body = Normal fromEmail ->
    read_ok o = true ->
    find (active_for toEmail) (mailboxes w) = None ->
    Outcome (acknowledged "ignored_no_mailbox") w
| Out_create_fails toEmail fromEmail mb :
    normalized_to body = Normal toEmail -> toEmail <> [] ->
    normalized_from body = Normal fromEmail ->
    read_ok o = true ->
    find (active_for toEmail) (mailboxes w) = Some mb ->
    (write_ok o = false \/ ~ exists s t h, casts s t h) ->
    Outcome webhook_error w
| Out_ok toEmail fromEmail mb s t h :
    normalized_to body = Normal toEmail -> toEmail <> [] ->
    normalized_from body = Normal fromEmail ->
    read_ok o = true ->
    find (active_for toEmail) (mailboxes w) = Some mb ->
    casts s t h ->
    write_ok o = true ->
    let m := ingested mb toEmail fromEmail s t h in
    Outcome (acknowledged "ok")
            {| mailboxes := mailboxes w;
               messages := messages w ++ [m];
               emitted := emitted w
                          ++ [{| room := u "mailbox:" ++ mb.(mailboxSchema._id);
                                 event := "newMessage";
                                 payload := newMessage_payload m |}] |}.

End InboundOutcome.

(** ** Sample data *)

Module Sample.

Definition one : number := {| num_truthy := true; num_text := u "1" |}.

Definition oracle : Oracle :=
  {| date_now := fun i => (1700000000000 + Z.of_nat i)%Z;
     random_index := fun i => i;
     objectId := u "65a1b2c3d4e5f60718293a4b";
     read_ok := true;
     write_ok := true |}.

(** The surroundings of a second request, a minute later. *)
Definition later_oracle : Oracle :=
  {| date_now := fun i => (1700000060000 + Z.of_nat i)%Z;
     random_index := fun i => i;
     objectId := u "65a1b2c3d4e5f60718293a4c";
     read_ok := true;
     write_ok := true |}.

Definition env : Env := {| MAIL_DOMAIN := None; MAILBOX_TTL_MINUTES := None |}.

(** A mailbox for [a@b.com] that expires an hour after its creation. *)
Definition mailbox : mailboxSchema.doc :=
  {| mailboxSchema._id := u "65a1b2c3d4e5f60718293a00";
     mailboxSchema.address := u "a@b.com";
     mailboxSchema.userId := None;
     mailboxSchema.createdAt := 1699999000000%Z;
     mailboxSchema.expiresAt := 1700002600000%Z;
     mailboxSchema.isActive := true |}.

(** The same mailbox one second past its expiry at the clock of
    [oracle], and not yet removed by the store. *)
Definition expired_mailbox : mailboxSchema.doc :=
  {| mailboxSchema._id := u "65a1b2c3d4e5f60718293a00";
     mailboxSchema.address := u "a@b.com";
     mailboxSchema.userId := None;
     mailboxSchema.createdAt := 1699996399000%Z;
     mailboxSchema.expiresAt := 1699999999000%Z;
     mailboxSchema.isActive := true |}.

(** The mailbox [POST /api/mailbox] stores under [oracle] and [env]. *)
Definition created : mailboxSchema.doc :=
  {| mailboxSchema._id := objectId oracle;
     mailboxSchema.address := u "abcdefghij@example.com";
     mailboxSchema.userId := None;
     mailboxSchema.createdAt := 1700000000001%Z;
     mailboxSchema.expiresAt := 1700003600000%Z;
     mailboxSchema.isActive := true |}.

Definition world (mbs : list mailboxSchema.doc) : World :=
  {| mailboxes := mbs; messages := []; emitted := [] |}.

Definition message (id : string) (mailboxId : ObjectId) (receivedAt : Date)
  : messageSchema.doc :=
  {| messageSchema._id := u id;
     messageSchema.mailboxId := mailboxId;
     messageSchema.from := u "x@y.org";
     messageSchema.to := u "a@b.com";
     messageSchema.subject := [];
     messageSchema.text := [];
     messageSchema.html := [];
     messageSchema.receivedAt := receivedAt;
     messageSchema.isRead := false |}.

(** Three stored messages, two of them of [mailbox]. *)
Definition inbox : World :=
  {| mailboxes := [mailbox];
     messages := [ message "m1" (u "65a1b2c3d4e5f60718293a00") 1700000005000%Z;
                   message "m2" (u "65a1b2c3d4e5f60718293aff") 1700000007000%Z;
                   message "m3" (u "65a1b2c3d4e5f60718293a00") 1700000009000%Z ];
     emitted := [] |}.

(** The message the webhook stores for [hi_payload] and [mailbox]. *)
Definition ingested : messageSchema.doc :=
  {| messageSchema._id := objectId oracle;
     messageSchema.mailboxId := u "65a1b2c3d4e5f60718293a00";
     messageSchema.from := u "unknown@unknown";
     messageSchema.to := u "a@b.com";
     messageSchema.subject := u "hi";
     messageSchema.text := [];
     messageSchema.html := [];
     messageSchema.receivedAt := 1700000000000%Z;
     messageSchema.isRead := false |}.

(** [{ to_email: "a@b.com", subject: "hi" }] *)
Definition hi_payload : value :=
  VObj [ (u "to_email", VStr (u "a@b.com")); (u "subject", VStr (u "hi")) ].

(** [{ toString: 1 }], a value [String(...)] cannot convert. *)
Definition unconvertible : value := VObj [ (u "toString", VNum one) ].


(** A configuration with the given time-to-live setting. *)
Definition env_ttl (minutes : string) : Env :=
  {| MAIL_DOMAIN := None; MAILBOX_TTL_MINUTES := Some (u minutes) |}.

(** [{ from: { toString: 1 } }] *)
Definition no_to_bad_from : value :=
  VObj [ (u "from", VObj [ (u "toString", VNum one) ]) ].

(** [{ to: "nobody@b.com", from: { toString: 1 } }] *)
Definition unknown_to_bad_from : value :=
  VObj [ (u "to", VStr (u "nobody@b.com"));
         (u "from", VObj [ (u "toString", VNum one) ]) ].

(** The event the webhook emits for [ingested]. *)
Definition notification : Emit :=
  {| room := u "mailbox:65a1b2c3d4e5f60718293a00";
     event := "newMessage";
     payload := newMessage_payload ingested |}.

(** The state after the webhook has handled [hi_payload] in
    [world [mailbox]]. *)
Definition after_hi : World :=
  {| mailboxes := [mailbox];
     messages := [ingested];
     emitted := [notification] |}.

(** A store that already holds an older message of [mailbox]. *)
Definition with_earlier : World :=
  {| mailboxes := [mailbox];
     messages := [ message "m0" (u "65a1b2c3d4e5f60718293a00")
                           1699999990000%Z ];
     emitted := [] |}.

(** [{ to: "abcdefghij@example.com" }], a message for [created]. *)
Definition to_created_payload : value :=
  VObj [ (u "to", VStr (u "abcdefghij@example.com")) ].

(** [{ to: "Name <a@b.com>", sender: "Bob <bob@x.org>", body: "hello" }] *)
Definition display_name_payload : value :=
  VObj [ (u "to", VStr (u "Name <a@b.com>"));
         (u "sender", VStr (u "Bob <bob@x.org>"));
         (u "body", VStr (u "hello")) ].

End Sample.

(** * Properties *)

(** ** Generated local parts *)


Lemma chars_lower_alnum : lower_alnum chars.
Proof.
  unfold lower_alnum. apply Forall_forall. intros c Hc.
  assert (H : forallb is_lower_alnum chars = true) by reflexivity.
  rewrite forallb_forall in H. auto.
Qed.

Lemma append_char_at_in_range local k :
  k < List.length chars ->
  exists c, append_char_at local k = local ++ [c] /\ is_lower_alnum c = true.
Proof.
  intros Hk. unfold append_char_at.
  destruct (nth_error chars k) as [c|] eqn:E.
  - exists c. split; [reflexivity|].
    pose proof chars_lower_alnum as H. unfold lower_alnum in H.
    rewrite Forall_forall in H. apply H. eapply nth_error_In; eauto.
  - apply nth_error_None in E. lia.
Qed.

Lemma generate_loop_spec rnd n :
  forall i local,
    (forall j, i <= j < i + n -> rnd j < List.length chars) ->
    lower_alnum local ->
    List.length (generate_loop rnd n i local) = List.length local + n
    /\ lower_alnum (generate_loop rnd n i local).
Proof.
  induction n as [|n IH]; intros i local Hr Hl; simpl.
  - split; [lia | assumption].
  - destruct (@append_char_at_in_range local (rnd i)) as (c & Ec & Hc).
    { apply Hr. lia. }
    rewrite Ec.
    destruct (IH (S i) (local ++ [c])) as [Hlen Hal].
    + intros j Hj. apply Hr. lia.
    + apply Forall_app. split; [assumption | constructor; auto].
    + split; [|assumption].
      rewrite Hlen, length_app. simpl. lia.
Qed.

(** C8. A generated local part has the requested length, 10 when the
    argument is omitted, and consists of lowercase letters and digits
    only, as long as every draw [Math.floor(Math.random() * chars.length)]
    is an index into [chars]. *)
Theorem generateRandomLocalPart_lower_alnum
    (random_index : nat -> nat) (length : option nat) :
  (forall i, i < default_length length ->
             random_index i < List.length chars) ->
  List.length (generateRandomLocalPart random_index length)
    = default_length length
  /\ lower_alnum (generateRandomLocalPart random_index length)
  /\ default_length None = 10.
Proof.
  intros Hr. unfold generateRandomLocalPart.
  destruct (@generate_loop_spec random_index (default_length length) 0 [])
    as [Hlen Hal].
  - intros j Hj. apply Hr. lia.
  - constructor.
  - repeat split; assumption || reflexivity.
Qed.

Lemma generateRandomLocalPart_lower_alnum_witness :
  List.length (generateRandomLocalPart (fun i => i) None) = 10
  /\ lower_alnum (generateRandomLocalPart (fun i => i) None)
  /\ default_length None = 10.
Proof.
  apply (@generateRandomLocalPart_lower_alnum (fun i => i) None).
  unfold default_length. simpl. intros i Hi. lia.
Defined.

(** A draw outside [chars] would append the text of [undefined]. *)
Example generateRandomLocalPart_out_of_range :
  generateRandomLocalPart (fun _ => 36) (Some 1) = u "undefined".
Proof. reflexivity. Qed.

(** ** The angle-bracket capture *)

Module AngleRegexFacts.
Import AngleRegex AngleForm.


Lemma lazy_rest_sound s : forall c,
  lazy_rest s = Some c ->
  exists post, s = c ++ gt :: post /\ no_line_terminator c /\ ~ In gt c.
Proof.
  induction s as [|a s IH]; intros c H; simpl in H; [discriminate|].
  destruct (N.eqb a gt) eqn:Ea.
  - inversion H; subst. apply N.eqb_eq in Ea. subst a.
    exists s. repeat split; [constructor | intros []].
  - destruct (is_line_terminator a) eqn:El; [discriminate|].
    destruct (lazy_rest s) as [c'|] eqn:Er; simpl in H; [|discriminate].
    inversion H; subst. destruct (IH c' eq_refl) as (post & -> & Hn & Hg).
    exists post. repeat split.
    + constructor; assumption.
    + intros [->|Hin]; [|auto]. rewrite N.eqb_refl in Ea. discriminate.
Qed.



Lemma match_here_sound s c :
  match_here s = Some c ->
  exists post, bracketed s [] c post /\ ~ In gt (tl c).
Proof.
  unfold match_here, bracketed. destruct s as [|a [|c1 r]]; try discriminate.
  destruct (N.eqb a lt) eqn:Ea; [|discriminate].
  destruct (is_line_terminator c1) eqn:El; [discriminate|].
  destruct (lazy_rest r) as [c'|] eqn:Er; simpl; [|discriminate].
  intros H. inversion H; subst. apply N.eqb_eq in Ea. subst a.
  destruct (lazy_rest_sound _ Er) as (post & -> & Hn & Hg).
  exists post. simpl. repeat split; try assumption.
  - discriminate.
  - constructor; assumption.
Qed.


Lemma search_sound s : forall c,
  search s = Some c ->
  exists pre post, bracketed s pre c post /\ ~ In gt (tl c).
Proof.
  induction s as [|a s IH]; intros c H.
  - discriminate H.
  - cbn [search] in H. destruct (match_here (a :: s)) as [c0|] eqn:Em.
    + inversion H; subst c0.
      destruct (match_here_sound _ Em) as (post & Hb & Hg).
      exists [], post. split; assumption.
    + destruct (IH c H) as (pre & post & (Hs & Hne & Hn) & Hg).
      exists (a :: pre), post. repeat split; auto.
      rewrite Hs. reflexivity.
Qed.



End AngleRegexFacts.

(** ** Address normalisation *)

Lemma extractEmail_string (raw : jsstring) :
  extractEmail (VStr raw)
  = Normal (match AngleRegex.search (trim raw) with
            | Some m1 => m1
            | None => trim raw
            end).
Proof.
  destruct raw as [|c raw]; [reflexivity|].
  unfold extractEmail. cbn [truthy negb ToString].
  destruct (AngleRegex.search (trim (c :: raw))); reflexivity.
Qed.

(** A value that is not a string is normalised as its [String(...)]
    text is; falsy values give the empty string, and a conversion that
    raises makes the normalisation raise. *)
Lemma extractEmail_value (v : value) :
  extractEmail v
  = if truthy v then
      match ToString v with
      | Normal s => extractEmail (VStr s)
      | Throw => Throw
      end
    else Normal [].
Proof.
  unfold extractEmail at 1. destruct (truthy v); simpl; [|reflexivity].
  destruct (ToString v) as [s|]; [|reflexivity].
  rewrite extractEmail_string. destruct (AngleRegex.search (trim s)); reflexivity.
Qed.

(** The same on further inputs: the first [<] with a usable capture
    wins, and an empty pair of brackets is not a match. *)
Example extractEmail_examples :
  extractEmail (VStr (u "  plain@b.com  ")) = Normal (u "plain@b.com")
  /\ extractEmail (VStr (u "A <a@b.com>, B <c@d.com>")) = Normal (u "a@b.com")
  /\ extractEmail (VStr (u "<>")) = Normal (u "<>")
  /\ extractEmail (VStr (u "x <<b>")) = Normal (u "<b")
  /\ extractEmail (VStr []) = Normal [].
Proof. repeat split; reflexivity. Qed.

(** ** Outcomes of the inbound webhook *)

Lemma eqb_eq s : forall t, JsString.eqb s t = true <-> s = t.
Proof.
  induction s as [|a s IH]; intros [|b t]; simpl; split; intros H;
    try reflexivity; try discriminate.
  - apply andb_true_iff in H. destruct H as [Hab Hst].
    apply N.eqb_eq in Hab. apply IH in Hst. congruence.
  - inversion H; subst. rewrite N.eqb_refl. simpl. apply IH. reflexivity.
Qed.


Lemma active_for_true address mb :
  active_for address mb = true <->
  mb.(mailboxSchema.address) = address /\ mb.(mailboxSchema.isActive) = true.
Proof.
  unfold active_for. rewrite andb_true_iff, eqb_eq, Bool.eqb_true_iff.
  reflexivity.
Qed.


Section InboundOutcomeFacts.
Context {mongoose : Mongoose}.
Variables (o : Oracle) (body : value) (w : World).

(** The handler always responds, and along one of the paths above. *)
Lemma inboundEmail_outcome :
  exists resp w',
    inboundEmail o body w = (Normal resp, w') /\ Outcome o body w resp w'.
Proof.
  unfold inboundEmail, try_catch, bind, lift, ret.
  fold (normalized_to body). fold (normalized_from body).
  destruct (normalized_to body) as [toEmail|] eqn:Eto.
  2:{ do 2 eexists. split; [reflexivity | apply Out_to_raises; assumption]. }
  destruct (normalized_from body) as [fromEmail|] eqn:Efrom.
  2:{ do 2 eexists. split; [reflexivity |].
      eapply Out_from_raises; eassumption. }
  destruct toEmail as [|c toEmail].
  { do 2 eexists. split; [reflexivity |]. eapply Out_no_to; eassumption. }
  assert (Hne : c :: toEmail <> []) by discriminate.
  unfold Mailbox.findOne. fold (active_for (c :: toEmail)).
  destruct (read_ok o) eqn:Er; simpl.
  2:{ do 2 eexists. split; [reflexivity |].
      eapply Out_read_fails; eassumption. }
  destruct (find (active_for (c :: toEmail)) (mailboxes w)) as [mb|] eqn:Ef.
  2:{ do 2 eexists. split; [reflexivity |].
      eapply Out_no_mailbox; eassumption. }
  unfold Message.create.
  destruct (Message.cast (rawSubject (body ||| VObj []) ||| VStr []))
    as [s|] eqn:Es.
  2:{ do 2 eexists. split; [reflexivity |].
      eapply Out_create_fails; try eassumption. right.
      intros (s & t & h & Hs & _). congruence. }
  destruct (Message.cast (rawText (body ||| VObj []) ||| VStr []))
    as [t|] eqn:Et.
  2:{ do 2 eexists. split; [reflexivity |].
      eapply Out_create_fails; try eassumption. right.
      intros (s' & t & h & _ & Ht & _). congruence. }
  destruct (Message.cast (rawHtml (body ||| VObj []) ||| VStr []))
    as [h|] eqn:Eh.
  2:{ do 2 eexists. split; [reflexivity |].
      eapply Out_create_fails; try eassumption. right.
      intros (s' & t' & h & _ & _ & Hh). congruence. }
  destruct (write_ok o) eqn:Ew; simpl.
  2:{ do 2 eexists. split; [reflexivity |].
      eapply Out_create_fails; try eassumption. left. assumption. }
  do 2 eexists. split; [reflexivity |].
  eapply Out_ok with (s := s) (t := t) (h := h); try eassumption.
  repeat split; assumption.
Qed.

End InboundOutcomeFacts.

(** ** Mailbox creation *)

Lemma not_self_snoc {A} (l : list A) (x : A) : l <> l ++ [x].
Proof.
  intros H. apply (f_equal (@List.length A)) in H.
  rewrite length_app in H. simpl in H. lia.
Qed.

(** *** Whole numbers in double arithmetic *)

Module DoubleFacts.
Import Double DoubleValue.
Local Open Scope Z_scope.

















End DoubleFacts.

(** A mailbox appended by [POST /api/mailbox] is the document built
    from the expiry date the handler computes and the schema defaults. *)
Lemma createMailbox_created {mongoose : Mongoose} o env w resp w' mb :
  createMailbox o env w = (Normal resp, w') ->
  mailboxes w' = mailboxes w ++ [mb] ->
  exists e,
    expiry_date (date_now o 0) (ttlMinutes env) = Some e
    /\ mb = {| mailboxSchema._id := objectId o;
               mailboxSchema.address :=
                 generateRandomLocalPart (random_index o) None
                 ++ u "@" ++ mail_domain env;
               mailboxSchema.userId := None;
               mailboxSchema.createdAt := date_now o 1;
               mailboxSchema.expiresAt := e;
               mailboxSchema.isActive := true |}
    /\ resp = {| status_code := 200;
                 json := JMailbox (objectId o) mb.(mailboxSchema.address)
                                  mb.(mailboxSchema.expiresAt) |}.
Proof.
  unfold createMailbox, try_catch, bind, ret, Mailbox.create.
  destruct (expiry_date (date_now o 0) (ttlMinutes env)) as [e|].
  2:{ intros H Hm. inversion H; subst. destruct (@not_self_snoc _ _ _ Hm). }
  destruct (write_ok o); simpl.
  2:{ intros H Hm. inversion H; subst. destruct (@not_self_snoc _ _ _ Hm). }
  destruct (existsb _ (mailboxes w)).
  { intros H Hm. inversion H; subst. destruct (@not_self_snoc _ _ _ Hm). }
  intros H Hm. inversion H; subst. simpl in Hm.
  apply app_inj_tail in Hm. destruct Hm as [_ Hm]. subst mb.
  exists e. repeat split.
Qed.






(** Settings that are not strings of digits are numbers too: one and a
    half minutes are 90000 milliseconds, and white space, an exponent or
    a hexadecimal literal write sixty minutes as well as ["60"] does.  A
    hundred-thousandth of a minute is not a whole number of milliseconds,
    and a setting that is no number has none. *)
Example ttl_milliseconds_examples :
  map (fun s => ttl_milliseconds (Sample.env_ttl s))
      ["1.5"; " 60"; "6e1"; "+60"; "0x3c"; "-5"; "0.00001"; "soon"]%string
  = [Some 90000; Some 3600000; Some 3600000; Some 3600000; Some 3600000;
     Some (-300000); None; None]%Z.
Proof. vm_compute. reflexivity. Qed.

(** A time-to-live of one and a half minutes stores a mailbox that
    expires 90000 milliseconds after the handler's clock reading; a
    fraction of a millisecond is cut off by the date, and a setting that
    is no number gives an invalid date, which fails validation. *)
Example createMailbox_fractional_ttl :
  map (fun s =>
         map mailboxSchema.expiresAt
             (mailboxes (snd (createMailbox Sample.oracle (Sample.env_ttl s)
                                            (Sample.world [])))))
      ["1.5"; "0.00001"; "soon"]%string
  = [[1700000090000]; [1700000000000]; []]%Z.
Proof. vm_compute. reflexivity. Qed.

(** The address of a created mailbox is a generated local part, [@] and
    the configured domain. *)
Lemma createMailbox_address {mongoose : Mongoose} o env w resp w' mb :
  createMailbox o env w = (Normal resp, w') ->
  mailboxes w' = mailboxes w ++ [mb] ->
  mb.(mailboxSchema.address)
  = generateRandomLocalPart (random_index o) None ++ u "@" ++ mail_domain env.
Proof.
  intros H Hm.
  destruct (@createMailbox_created _ _ _ _ _ _ _ H Hm) as (e & _ & Hmb & _).
  subst mb. reflexivity.
Qed.

(** Creation succeeds when the expiry date is valid, the store accepts
    the write and no stored mailbox has the generated address. *)
Lemma createMailbox_succeeds {mongoose : Mongoose} o env w e :
  expiry_date (date_now o 0) (ttlMinutes env) = Some e ->
  write_ok o = true ->
  (forall mb, In mb (mailboxes w) ->
              mb.(mailboxSchema.address)
              <> generateRandomLocalPart (random_index o) None
                 ++ u "@" ++ mail_domain env) ->
  exists resp mb,
    createMailbox o env w
    = (Normal resp,
       {| mailboxes := mailboxes w ++ [mb]; messages := messages w;
          emitted := emitted w |})
    /\ status_code resp = 200.
Proof.
  intros He Hw Hfresh.
  unfold createMailbox, try_catch, bind, ret, Mailbox.create.
  rewrite He, Hw. simpl.
  destruct (existsb _ (mailboxes w)) eqn:E.
  - apply existsb_exists in E. destruct E as (mb & Hin & Heq).
    apply eqb_eq in Heq. destruct (Hfresh mb Hin Heq).
  - do 2 eexists. split; reflexivity.
Qed.

(** With draws inside [chars], the address of a created mailbox is ten
    lowercase letters or digits, [@] and the configured domain. *)
Lemma createMailbox_local_part {mongoose : Mongoose} o env w resp w' mb :
  (forall i, i < 10 -> random_index o i < List.length chars) ->
  createMailbox o env w = (Normal resp, w') ->
  mailboxes w' = mailboxes w ++ [mb] ->
  exists local,
    mb.(mailboxSchema.address) = local ++ u "@" ++ mail_domain env
    /\ List.length local = 10 /\ lower_alnum local.
Proof.
  intros Hr H Hm.
  exists (generateRandomLocalPart (random_index o) None).
  split; [exact (@createMailbox_address _ _ _ _ _ _ _ H Hm)|].
  destruct (@generate_loop_spec (random_index o) 10 0 []) as [Hlen Hal].
  - intros j Hj. apply Hr. lia.
  - constructor.
  - split; assumption.
Qed.

(** ** The inbound webhook *)

Section InboundFacts.
Context {mongoose : Mongoose}.

Lemma inboundEmail_inv o body w resp w' :
  inboundEmail o body w = (Normal resp, w') -> Outcome o body w resp w'.
Proof.
  intros H. destruct (inboundEmail_outcome o body w) as (r & w0 & E & Ho).
  rewrite E in H. inversion H; subst. assumption.
Qed.

(** A new message exists only on the successful path. *)
Lemma Outcome_new_message o body w resp w' m :
  Outcome o body w resp w' ->
  messages w' = messages w ++ [m] ->
  exists toEmail fromEmail mb s t h,
    normalized_to body = Normal toEmail /\ toEmail <> []
    /\ normalized_from body = Normal fromEmail
    /\ find (active_for toEmail) (mailboxes w) = Some mb
    /\ casts body s t h
    /\ m = ingested o mb toEmail fromEmail s t h
    /\ resp = acknowledged "ok"
    /\ emitted w' = emitted w
                    ++ [{| room := u "mailbox:" ++ mb.(mailboxSchema._id);
                           event := "newMessage";
                           payload := newMessage_payload m |}].
Proof.
  intros Ho Hm.
  destruct Ho as [ | | | | | | toEmail fromEmail mb s t h Hto Hne Hfrom Hr Hf Hc Hw m0];
    try (exfalso; exact (@not_self_snoc _ _ _ Hm)).
  simpl in Hm. apply app_inj_tail in Hm. destruct Hm as [_ Hm]. subst m.
  exists toEmail, fromEmail, mb, s, t, h.
  split; [assumption|]. split; [assumption|]. split; [assumption|].
  split; [assumption|]. split; [assumption|].
  split; [reflexivity|]. split; reflexivity.
Qed.

Lemma find_active_for toEmail mbs mb :
  find (active_for toEmail) mbs = Some mb ->
  In mb mbs /\ mb.(mailboxSchema.address) = toEmail
  /\ mb.(mailboxSchema.isActive) = true.
Proof.
  intros H. apply find_some in H. destruct H as [Hin Ha].
  apply active_for_true in Ha. tauto.
Qed.

End InboundFacts.

(** C1 (amended).  A message created by the webhook references a
    mailbox that the store held at the lookup with [isActive] true and
    with the message's [to] as its address.  The lookup does not read
    [expiresAt]: the mailbox is unexpired at ingestion when the store
    holds no expired mailbox at that time. *)
Theorem inboundEmail_mailbox_active {mongoose : Mongoose}
    o body w resp w' m :
  inboundEmail o body w = (Normal resp, w') ->
  messages w' = messages w ++ [m] ->
  exists mb,
    In mb (mailboxes w)
    /\ mb.(mailboxSchema._id) = m.(messageSchema.mailboxId)
    /\ mb.(mailboxSchema.isActive) = true
    /\ mb.(mailboxSchema.address) = m.(messageSchema.to)
    /\ m.(messageSchema.receivedAt) = date_now o 0
    /\ ((forall mb', In mb' (mailboxes w) ->
                     (date_now o 0 < mb'.(mailboxSchema.expiresAt))%Z) ->
        (m.(messageSchema.receivedAt) < mb.(mailboxSchema.expiresAt))%Z).
Proof.
  intros H Hm. apply inboundEmail_inv in H.
  destruct (@Outcome_new_message _ _ _ _ _ _ _ H Hm)
    as (toEmail & fromEmail & mb & s & t & h & _ & _ & _ & Hf & _ & -> & _).
  apply find_active_for in Hf. destruct Hf as (Hin & Ha & Hact).
  exists mb. simpl. repeat split; auto.
Qed.

Lemma inboundEmail_mailbox_active_witness :
  exists mb,
    In mb [Sample.mailbox]
    /\ mb.(mailboxSchema._id) = Sample.ingested.(messageSchema.mailboxId)
    /\ mb.(mailboxSchema.isActive) = true
    /\ mb.(mailboxSchema.address) = Sample.ingested.(messageSchema.to)
    /\ Sample.ingested.(messageSchema.receivedAt) = date_now Sample.oracle 0
    /\ ((forall mb', In mb' [Sample.mailbox] ->
                     (date_now Sample.oracle 0
                      < mb'.(mailboxSchema.expiresAt))%Z) ->
        (Sample.ingested.(messageSchema.receivedAt)
         < mb.(mailboxSchema.expiresAt))%Z).
Proof.
  apply (@inboundEmail_mailbox_active mongoose_casts Sample.oracle
           Sample.hi_payload (Sample.world [Sample.mailbox])
           (acknowledged "ok")
           {| mailboxes := [Sample.mailbox];
              messages := [Sample.ingested];
              emitted := [{| room := u "mailbox:65a1b2c3d4e5f60718293a00";
                             event := "newMessage";
                             payload := newMessage_payload Sample.ingested |}] |}
           Sample.ingested).
  - vm_compute. reflexivity.
  - reflexivity.
Defined.

(** C1, as stated, fails: a mailbox one second past [expiresAt] that the
    store still holds is found by the lookup, and a message is created for
    it. *)
Lemma inboundEmail_expired_counterexample :
  exists resp w' m,
    inboundEmail Sample.oracle Sample.hi_payload
                 (Sample.world [Sample.expired_mailbox]) = (Normal resp, w')
    /\ messages w'
       = messages (Sample.world [Sample.expired_mailbox]) ++ [m]
    /\ forall mb,
         In mb (mailboxes (Sample.world [Sample.expired_mailbox])) ->
         mb.(mailboxSchema._id) = m.(messageSchema.mailboxId) ->
         ~ (mb.(mailboxSchema.isActive) = true
            /\ (m.(messageSchema.receivedAt)
                < mb.(mailboxSchema.expiresAt))%Z).
Proof.
  do 3 eexists. split; [vm_compute; reflexivity|].
  split; [reflexivity|].
  intros mb [<-|[]] _ [_ H]. vm_compute in H. discriminate.
Qed.

(** C3.  With an active mailbox for [a@b.com] in the store and a store
    that answers, the payload [{ to_email: "a@b.com", subject: "hi" }] is
    acknowledged with [ok] and appends exactly one message, whose [to] is
    [a@b.com], whose [subject] is [hi] and whose [text] is empty. *)
Theorem inboundEmail_hi {mongoose : Mongoose} o w :
  read_ok o = true -> write_ok o = true ->
  (exists mb, In mb (mailboxes w)
              /\ mb.(mailboxSchema.address) = u "a@b.com"
              /\ mb.(mailboxSchema.isActive) = true) ->
  exists m e,
    inboundEmail o
      (VObj [ (u "to_email", VStr (u "a@b.com"));
              (u "subject", VStr (u "hi")) ]) w
    = (Normal (acknowledged "ok"),
       {| mailboxes := mailboxes w; messages := messages w ++ [m];
          emitted := emitted w ++ [e] |})
    /\ m.(messageSchema.to) = u "a@b.com"
    /\ m.(messageSchema.subject) = u "hi"
    /\ m.(messageSchema.text) = [].
Proof.
  intros Hr Hw (mb0 & Hin & Haddr & Hact).
  set (body := VObj [ (u "to_email", VStr (u "a@b.com"));
                      (u "subject", VStr (u "hi")) ]).
  assert (Hto : normalized_to body = Normal (u "a@b.com")) by reflexivity.
  assert (Hfrom : normalized_from body = Normal []) by reflexivity.
  assert (Hc : casts body (u "hi") [] []) by (repeat split; reflexivity).
  destruct (inboundEmail_outcome o body w) as (resp & w' & E & Ho).
  rewrite E. clear E.
  destruct Ho as [ H | ? H1 H2 | ? H1 H2 | ? ? H1 ? ? Hr'
                 | toEmail ? H1 ? ? ? Hnone | ? ? ? ? ? ? ? ? Hfail
                 | toEmail fromEmail mb s t h H1 Hne H2 ? Hf Hc' ? m ].
  - rewrite Hto in H. discriminate.
  - rewrite Hfrom in H2. discriminate.
  - rewrite Hto in H1. discriminate.
  - congruence.
  - exfalso. rewrite Hto in H1. inversion H1; subst toEmail.
    apply (find_none _ _ Hnone) in Hin.
    assert (Ht : active_for (u "a@b.com") mb0 = true)
      by (apply active_for_true; split; assumption).
    congruence.
  - exfalso. destruct Hfail as [Hfail | Hfail]; [congruence|].
    apply Hfail. exists (u "hi"), [], []. exact Hc.
  - rewrite Hto in H1. inversion H1; subst toEmail.
    destruct Hc as (Hs & Ht & _). destruct Hc' as (Hs' & Ht' & _).
    rewrite Hs in Hs'. rewrite Ht in Ht'.
    inversion Hs'; inversion Ht'; subst s t.
    do 2 eexists. split; [reflexivity|]. repeat split.
Qed.

Lemma inboundEmail_hi_witness :
  exists m e,
    inboundEmail Sample.oracle
      (VObj [ (u "to_email", VStr (u "a@b.com"));
              (u "subject", VStr (u "hi")) ])
      (Sample.world [Sample.mailbox])
    = (Normal (acknowledged "ok"),
       {| mailboxes := [Sample.mailbox]; messages := [] ++ [m];
          emitted := [] ++ [e] |})
    /\ m.(messageSchema.to) = u "a@b.com"
    /\ m.(messageSchema.subject) = u "hi"
    /\ m.(messageSchema.text) = [].
Proof.
  apply (@inboundEmail_hi mongoose_casts Sample.oracle
           (Sample.world [Sample.mailbox])).
  - reflexivity.
  - reflexivity.
  - exists Sample.mailbox. repeat split. left. reflexivity.
Defined.

(** When every alias of the destination is missing or falsy, the
    normalised destination is empty. *)
Lemma normalized_to_missing (body : value) :
  (forall alias, In alias ["to_email"; "to"; "recipient"; "toAddress"]%string ->
                 truthy (get (body ||| VObj []) alias) = false) ->
  normalized_to body = Normal [].
Proof.
  intros H. unfold normalized_to, rawTo, or.
  rewrite !H by (simpl; tauto). reflexivity.
Qed.

(** C5 (amended).  When the normalised destination is empty and the
    normalisation of the sender completes, the webhook answers 200 with
    [ignored_no_to_email] whatever the store holds and whether or not it
    answers, and leaves the state as it was. *)
Theorem inboundEmail_no_to {mongoose : Mongoose} o body w fromEmail :
  normalized_to body = Normal [] ->
  normalized_from body = Normal fromEmail ->
  inboundEmail o body w
  = (Normal {| status_code := 200; json := JStatus "ignored_no_to_email" |},
     w).
Proof.
  intros Hto Hfrom.
  unfold inboundEmail, try_catch, bind, lift, ret.
  fold (normalized_to body). fold (normalized_from body).
  rewrite Hto, Hfrom. reflexivity.
Qed.

Lemma inboundEmail_no_to_witness :
  inboundEmail Sample.oracle (VObj [ (u "subject", VStr (u "hi")) ])
               (Sample.world [Sample.mailbox])
  = (Normal {| status_code := 200; json := JStatus "ignored_no_to_email" |},
     Sample.world [Sample.mailbox]).
Proof.
  apply (@inboundEmail_no_to mongoose_casts Sample.oracle
           (VObj [ (u "subject", VStr (u "hi")) ])
           (Sample.world [Sample.mailbox]) []).
  - reflexivity.
  - reflexivity.
Defined.

(** C5, as stated, fails: the payload [{ from: { toString: 1 } }] has no
    destination, yet normalising its sender raises before the destination
    is tested, and the answer is 500. *)
Lemma inboundEmail_no_to_counterexample :
  normalized_to Sample.no_to_bad_from = Normal []
  /\ inboundEmail Sample.oracle Sample.no_to_bad_from
                  (Sample.world [Sample.mailbox])
     = (Normal {| status_code := 500; json := JError "Webhook error" |},
        Sample.world [Sample.mailbox])
  /\ inboundEmail Sample.oracle Sample.no_to_bad_from
                  (Sample.world [Sample.mailbox])
     <> (Normal {| status_code := 200;
                   json := JStatus "ignored_no_to_email" |},
         Sample.world [Sample.mailbox]).
Proof.
  split; [reflexivity|]. split; [vm_compute; reflexivity|].
  vm_compute. discriminate.
Qed.

(** C6 (amended).  When the normalised destination is not empty, the
    normalisation of the sender completes, the store answers the lookup
    and holds no active mailbox with that address, the webhook answers 200
    with [ignored_no_mailbox] and leaves the state as it was. *)
Theorem inboundEmail_no_mailbox {mongoose : Mongoose}
    o body w toEmail fromEmail :
  normalized_to body = Normal toEmail -> toEmail <> [] ->
  normalized_from body = Normal fromEmail ->
  read_ok o = true ->
  (forall mb, In mb (mailboxes w) ->
              ~ (mb.(mailboxSchema.address) = toEmail
                 /\ mb.(mailboxSchema.isActive) = true)) ->
  inboundEmail o body w
  = (Normal {| status_code := 200; json := JStatus "ignored_no_mailbox" |},
     w).
Proof.
  intros Hto Hne Hfrom Hr Hnone.
  assert (Hf : find (active_for toEmail) (mailboxes w) = None).
  { destruct (find (active_for toEmail) (mailboxes w)) as [mb|] eqn:E;
      [|reflexivity].
    apply find_active_for in E. destruct E as (Hin & Ha & Hact).
    exfalso. apply (Hnone mb Hin). split; assumption. }
  unfold inboundEmail, try_catch, bind, lift, ret.
  fold (normalized_to body). fold (normalized_from body).
  rewrite Hto, Hfrom. destruct toEmail as [|c toEmail]; [contradiction|].
  unfold Mailbox.findOne. fold (active_for (c :: toEmail)).
  rewrite Hr, Hf. reflexivity.
Qed.

Lemma inboundEmail_no_mailbox_witness :
  inboundEmail Sample.oracle (VObj [ (u "to", VStr (u "Nobody <nobody@b.com>")) ])
               (Sample.world [Sample.mailbox])
  = (Normal {| status_code := 200; json := JStatus "ignored_no_mailbox" |},
     Sample.world [Sample.mailbox]).
Proof.
  apply (@inboundEmail_no_mailbox mongoose_casts Sample.oracle
           (VObj [ (u "to", VStr (u "Nobody <nobody@b.com>")) ])
           (Sample.world [Sample.mailbox]) (u "nobody@b.com") []).
  - reflexivity.
  - discriminate.
  - reflexivity.
  - reflexivity.
  - intros mb [<-|[]] [Ha _]. vm_compute in Ha. discriminate.
Defined.

(** C6, as stated, fails: [{ to: "nobody@b.com", from: { toString: 1 } }]
    names a destination no mailbox has, the store answers, yet normalising
    the sender raises before the lookup and the answer is 500. *)
Lemma inboundEmail_no_mailbox_counterexample :
  normalized_to Sample.unknown_to_bad_from = Normal (u "nobody@b.com")
  /\ read_ok Sample.oracle = true
  /\ (forall mb, In mb (mailboxes (Sample.world [Sample.mailbox])) ->
                 mb.(mailboxSchema.address) <> u "nobody@b.com")
  /\ inboundEmail Sample.oracle Sample.unknown_to_bad_from
                  (Sample.world [Sample.mailbox])
     = (Normal {| status_code := 500; json := JError "Webhook error" |},
        Sample.world [Sample.mailbox])
  /\ inboundEmail Sample.oracle Sample.unknown_to_bad_from
                  (Sample.world [Sample.mailbox])
     <> (Normal {| status_code := 200;
                   json := JStatus "ignored_no_mailbox" |},
         Sample.world [Sample.mailbox]).
Proof.
  split; [reflexivity|]. split; [reflexivity|].
  split; [intros mb [<-|[]]; vm_compute; discriminate|].
  split; [vm_compute; reflexivity|].
  vm_compute. discriminate.
Qed.

(** C9.  When the webhook stores a message, it emits one [newMessage]
    event to the room of the owning mailbox, and the object it sends has
    exactly the keys [id], [from], [to], [subject], [text] and
    [receivedAt], each with the value of the stored message; there is no
    [html] key. *)
Theorem inboundEmail_notification {mongoose : Mongoose}
    o body w resp w' m :
  inboundEmail o body w = (Normal resp, w') ->
  messages w' = messages w ++ [m] ->
  exists e,
    emitted w' = emitted w ++ [e]
    /\ room e = u "mailbox:" ++ m.(messageSchema.mailboxId)
    /\ event e = "newMessage"%string
    /\ payload e
       = [ ("id", FStr m.(messageSchema._id));
           ("from", FStr m.(messageSchema.from));
           ("to", FStr m.(messageSchema.to));
           ("subject", FStr m.(messageSchema.subject));
           ("text", FStr m.(messageSchema.text));
           ("receivedAt", FDate m.(messageSchema.receivedAt)) ]%string
    /\ ~ In "html"%string (map fst (payload e)).
Proof.
  intros H Hm. apply inboundEmail_inv in H.
  destruct (@Outcome_new_message _ _ _ _ _ _ _ H Hm)
    as (toEmail & fromEmail & mb & s & t & h
        & _ & _ & _ & _ & _ & -> & _ & He).
  eexists. split; [exact He|]. simpl.
  split; [reflexivity|]. split; [reflexivity|]. split; [reflexivity|].
  intros Hin. repeat (destruct Hin as [Hin|Hin]; [discriminate|]).
  destruct Hin.
Qed.

Lemma inboundEmail_notification_witness :
  exists e,
    [{| room := u "mailbox:65a1b2c3d4e5f60718293a00";
        event := "newMessage";
        payload := newMessage_payload Sample.ingested |}] = [] ++ [e]
    /\ room e = u "mailbox:" ++ Sample.ingested.(messageSchema.mailboxId)
    /\ event e = "newMessage"%string
    /\ payload e
       = [ ("id", FStr Sample.ingested.(messageSchema._id));
           ("from", FStr Sample.ingested.(messageSchema.from));
           ("to", FStr Sample.ingested.(messageSchema.to));
           ("subject", FStr Sample.ingested.(messageSchema.subject));
           ("text", FStr Sample.ingested.(messageSchema.text));
           ("receivedAt", FDate Sample.ingested.(messageSchema.receivedAt)) ]%string
    /\ ~ In "html"%string (map fst (payload e)).
Proof.
  apply (@inboundEmail_notification mongoose_casts Sample.oracle
           Sample.hi_payload (Sample.world [Sample.mailbox])
           (acknowledged "ok")
           {| mailboxes := [Sample.mailbox];
              messages := [Sample.ingested];
              emitted := [{| room := u "mailbox:65a1b2c3d4e5f60718293a00";
                             event := "newMessage";
                             payload := newMessage_payload Sample.ingested |}] |}
           Sample.ingested).
  - vm_compute. reflexivity.
  - reflexivity.
Defined.

(** C10.  Whatever the payload, the store and the surroundings, one
    invocation of the webhook responds, leaves the mailboxes as they were
    and leaves the messages as they were or appends exactly one; it
    appends none unless it answers [ok]. *)
Theorem inboundEmail_frame {mongoose : Mongoose} o body w :
  exists resp w',
    inboundEmail o body w = (Normal resp, w')
    /\ mailboxes w' = mailboxes w
    /\ (messages w' = messages w
        \/ exists m, messages w' = messages w ++ [m])
    /\ (resp <> {| status_code := 200; json := JStatus "ok" |} ->
        w' = w).
Proof.
  destruct (inboundEmail_outcome o body w) as (resp & w' & E & Ho).
  exists resp, w'. split; [exact E|].
  destruct Ho;
    try (split; [reflexivity|]; split; [left; reflexivity|];
         intros _; reflexivity).
  split; [reflexivity|]. split; [right; eexists; reflexivity|].
  intros Hne. exfalso. apply Hne. reflexivity.
Qed.

(** ** Listing the messages of a mailbox *)

Module MessageSort.
Import messageSchema Message MessageOrder.

Lemma insert_desc_perm m l : Permutation (m :: l) (insert_desc m l).
Proof.
  induction l as [|x r IH]; simpl.
  - apply Permutation_refl.
  - destruct (Z.leb (receivedAt x) (receivedAt m)).
    + apply Permutation_refl.
    + eapply Permutation_trans; [apply perm_swap|].
      apply perm_skip. exact IH.
Qed.

Lemma sort_desc_perm l : Permutation l (sort_desc l).
Proof.
  induction l as [|m r IH]; simpl.
  - apply Permutation_refl.
  - eapply Permutation_trans; [apply perm_skip; exact IH|].
    apply insert_desc_perm.
Qed.

Lemma insert_desc_sorted m l :
  StronglySorted newer_or_equal l ->
  StronglySorted newer_or_equal (insert_desc m l).
Proof.
  induction l as [|x r IH]; intros Hs; simpl.
  - constructor; constructor.
  - inversion Hs as [|? ? Hr Hx]; subst.
    destruct (Z.leb (receivedAt x) (receivedAt m)) eqn:E.
    + apply Z.leb_le in E. constructor; [assumption|].
      constructor; [exact E|].
      eapply Forall_impl; [|exact Hx].
      intros b Hb. unfold newer_or_equal in *. lia.
    + apply Z.leb_gt in E. constructor; [apply IH; assumption|].
      eapply Permutation_Forall; [apply insert_desc_perm|].
      constructor; [unfold newer_or_equal; lia | assumption].
Qed.

Lemma sort_desc_sorted l : StronglySorted newer_or_equal (sort_desc l).
Proof.
  induction l as [|m r IH]; simpl.
  - constructor.
  - apply insert_desc_sorted. exact IH.
Qed.

End MessageSort.

Lemma StronglySorted_map_format (ms : list messageSchema.doc) :
  StronglySorted MessageOrder.newer_or_equal ms ->
  StronglySorted (fun a b => (f_receivedAt b <= f_receivedAt a)%Z)
                 (map format ms).
Proof.
  induction 1 as [|m ms Hs IH Hm]; simpl; constructor.
  - exact IH.
  - apply Forall_map. exact Hm.
Qed.

(** C7.  For an identifier that casts to an [ObjectId] and a store that
    answers, the listing responds 200 with the formatted messages of that
    mailbox: all of them and no others, each as often as it is stored, in
    non-increasing order of [receivedAt]; when the mailbox has no
    message the sequence is empty.  The state is left as it was. *)
Theorem listMessages_newest_first {mongoose : Mongoose} o id oid w :
  castObjectId id = Some oid ->
  read_ok o = true ->
  exists ms,
    listMessages o id w
    = (Normal {| status_code := 200; json := JMessages (map format ms) |}, w)
    /\ Permutation ms
         (filter (fun m => JsString.eqb m.(messageSchema.mailboxId) oid)
                 (messages w))
    /\ (forall m, In m ms <->
                  In m (messages w) /\ m.(messageSchema.mailboxId) = oid)
    /\ StronglySorted MessageOrder.newer_or_equal ms
    /\ StronglySorted (fun a b => (f_receivedAt b <= f_receivedAt a)%Z)
                      (map format ms)
    /\ ((forall m, In m (messages w) -> m.(messageSchema.mailboxId) <> oid) ->
        ms = []).
Proof.
  intros Hid Hr.
  set (own := filter (fun m => JsString.eqb m.(messageSchema.mailboxId) oid)
                     (messages w)).
  assert (Hp : Permutation (Message.sort_desc own) own)
    by (apply Permutation_sym, MessageSort.sort_desc_perm).
  exists (Message.sort_desc own). split.
  { unfold listMessages, try_catch, bind, ret, Message.find_sorted.
    rewrite Hid, Hr. reflexivity. }
  split; [exact Hp|]. split.
  { intros m. split.
    - intros Hin. apply (Permutation_in _ Hp) in Hin.
      apply filter_In in Hin. rewrite eqb_eq in Hin. exact Hin.
    - intros Hin. apply (Permutation_in _ (Permutation_sym Hp)).
      apply filter_In. rewrite eqb_eq. exact Hin. }
  split; [apply MessageSort.sort_desc_sorted|].
  split; [apply StronglySorted_map_format, MessageSort.sort_desc_sorted|].
  intros Hnone.
  assert (Ho : own = []).
  { destruct own as [|m r] eqn:E; [reflexivity|].
    assert (Hin : In m own) by (rewrite E; left; reflexivity).
    apply filter_In in Hin. rewrite eqb_eq in Hin.
    destruct Hin as [Hin Hm]. destruct (Hnone m Hin Hm). }
  rewrite Ho. reflexivity.
Qed.

Lemma listMessages_newest_first_witness :
  exists ms,
    listMessages Sample.oracle (u "65a1b2c3d4e5f60718293a00") Sample.inbox
    = (Normal {| status_code := 200; json := JMessages (map format ms) |},
       Sample.inbox)
    /\ Permutation ms
         (filter (fun m => JsString.eqb m.(messageSchema.mailboxId)
                                        (u "65a1b2c3d4e5f60718293a00"))
                 (messages Sample.inbox))
    /\ (forall m, In m ms <->
                  In m (messages Sample.inbox)
                  /\ m.(messageSchema.mailboxId)
                     = u "65a1b2c3d4e5f60718293a00")
    /\ StronglySorted MessageOrder.newer_or_equal ms
    /\ StronglySorted (fun a b => (f_receivedAt b <= f_receivedAt a)%Z)
                      (map format ms)
    /\ ((forall m, In m (messages Sample.inbox) ->
                   m.(messageSchema.mailboxId)
                   <> u "65a1b2c3d4e5f60718293a00") ->
        ms = []).
Proof.
  apply (@listMessages_newest_first mongoose_casts Sample.oracle
           (u "65a1b2c3d4e5f60718293a00") (u "65a1b2c3d4e5f60718293a00")
           Sample.inbox).
  - vm_compute. reflexivity.
  - reflexivity.
Defined.

(** The listing of [Sample.inbox]: the two messages of the mailbox, the
    newer one first. *)
Example listMessages_sample :
  listMessages Sample.oracle (u "65a1b2c3d4e5f60718293a00") Sample.inbox
  = (Normal {| status_code := 200;
               json := JMessages
                 (map format
                    [ Sample.message "m3" (u "65a1b2c3d4e5f60718293a00")
                                     1700000009000%Z;
                      Sample.message "m1" (u "65a1b2c3d4e5f60718293a00")
                                     1700000005000%Z ]) |},
     Sample.inbox).
Proof. vm_compute. reflexivity. Qed.

(** An identifier that does not cast to an [ObjectId], or a store that
    does not answer, gives the failure response. *)
Lemma listMessages_failure {mongoose : Mongoose} o id w :
  castObjectId id = None \/ read_ok o = false ->
  listMessages o id w
  = (Normal {| status_code := 500;
               json := JError "Failed to fetch messages" |}, w).
Proof.
  intros H. unfold listMessages, try_catch, bind, ret, Message.find_sorted.
  destruct (castObjectId id); [|reflexivity].
  destruct H as [H|H]; [discriminate|]. rewrite H. reflexivity.
Qed.

(** * Further properties *)

(** ** Conversions that raise *)

Lemma value_elements_ind (P : value -> Prop) :
  P VUndefined -> P VNull ->
  (forall b, P (VBool b)) -> (forall n, P (VNum n)) ->
  (forall s, P (VStr s)) ->
  (forall elems, Forall P elems -> P (VArr elems)) ->
  (forall props, P (VObj props)) ->
  forall v, P v.
Proof.
  intros Hu Hn Hb Hnum Hs Harr Hobj. fix IH 1.
  intros [ | | b | n | s | elems | props].
  - exact Hu.
  - exact Hn.
  - apply Hb.
  - apply Hnum.
  - apply Hs.
  - apply Harr. induction elems as [|x r IHr]; constructor.
    + apply IH.
    + exact IHr.
  - apply Hobj.
Qed.

(** How [String(...)] walks an array: it raises at the first element
    that raises, [null] and [undefined] never do. *)
Lemma ToString_array_raises x r :
  ToString (VArr (x :: r)) = Throw <->
  ToString x = Throw \/ ToString (VArr r) = Throw.
Proof.
  cbn [ToString].
  match goal with
  | |- context [match ?f r with Normal _ => _ | Throw => _ end] =>
      destruct (f r) as [ps|]
  end.
  - destruct x; cbv beta iota;
      try (split; [discriminate | intros [H|H]; discriminate]);
      match goal with
      | |- context [ToString ?v] => destruct (ToString v)
      end;
      split; try discriminate; auto; intros [H|H]; discriminate.
  - split; [right; reflexivity | intros _].
    destruct x; cbv beta iota; try reflexivity;
      match goal with
      | |- context [ToString ?v] => destruct (ToString v)
      end; reflexivity.
Qed.

Lemma ToString_raises_iff_unprintable (v : value) :
  ToString v = Throw <-> unprintable v.
Proof.
  induction v as [ | | b | n | s | elems IH | props ] using value_elements_ind;
    try (split; [discriminate | intros H; inversion H]).
  - destruct b; split; try discriminate; intros H; inversion H.
  - induction elems as [|x r IHr].
    + split; [discriminate|]. intros H. inversion H as [|? ? Hin]; subst.
      destruct Hin.
    + inversion IH as [|? ? Hx Hr]; subst. specialize (IHr Hr).
      rewrite ToString_array_raises. split.
      * intros [H|H].
        -- apply unprintable_array with (x := x); [left; reflexivity|].
           apply Hx. exact H.
        -- apply IHr in H. inversion H as [|? y Hin Hy]; subst.
           apply unprintable_array with (x := y); [right; exact Hin | exact Hy].
      * intros H. inversion H as [|? y Hin Hy]; subst.
        destruct Hin as [->|Hin].
        -- left. apply Hx. exact Hy.
        -- right. apply IHr. apply unprintable_array with (x := y); assumption.
  - cbn [ToString]. destruct (own_property (u "toString") props) as [v|] eqn:E.
    + split; [intros _; eapply unprintable_object; exact E | reflexivity].
    + split; [discriminate|]. intros H. inversion H; subst. congruence.
Qed.

Lemma unprintable_truthy v : unprintable v -> truthy v = true.
Proof. intros H. destruct H; reflexivity. Qed.

Lemma extractEmail_Throw_iff (v : value) :
  extractEmail v = Throw <-> unprintable v.
Proof.
  rewrite extractEmail_value. split.
  - destruct (truthy v); [|discriminate].
    destruct (ToString v) as [s|] eqn:E.
    + rewrite extractEmail_string. discriminate.
    + intros _. apply ToString_raises_iff_unprintable. exact E.
  - intros Hu. rewrite (unprintable_truthy Hu).
    apply ToString_raises_iff_unprintable in Hu. rewrite Hu. reflexivity.
Qed.

(** X1.  [extractEmail] raises on every value [String(...)] cannot
    convert: an object with an own [toString] key, and an array that
    holds such a value, however deep.  Such a value is truthy, so the
    alias chains of the webhook pass it on. *)
Theorem extractEmail_raises_on_unprintable (v : value) :
  unprintable v -> extractEmail v = Throw /\ truthy v = true.
Proof.
  intros H. split.
  - apply extractEmail_Throw_iff. exact H.
  - apply unprintable_truthy. exact H.
Qed.

Lemma extractEmail_raises_on_unprintable_witness :
  extractEmail (VArr [VStr (u "a@b.com"); VArr [Sample.unconvertible]])
  = Throw
  /\ truthy (VArr [VStr (u "a@b.com"); VArr [Sample.unconvertible]]) = true.
Proof.
  apply (@extractEmail_raises_on_unprintable
           (VArr [VStr (u "a@b.com"); VArr [Sample.unconvertible]])).
  apply unprintable_array with (x := VArr [Sample.unconvertible]).
  - right. left. reflexivity.
  - apply unprintable_array with (x := Sample.unconvertible).
    + left. reflexivity.
    + apply unprintable_object with (v := VNum Sample.one). reflexivity.
Defined.

(** ** More on the inbound webhook *)

(** X2.  When the raw destination or the raw sender (the first truthy
    alias) is a value [String(...)] cannot convert, the webhook answers
    500 with [Webhook error] and leaves the state as it was, whatever the
    store holds and whether or not it answers. *)
Theorem inboundEmail_error_on_unprintable {mongoose : Mongoose} o body w :
  unprintable (rawTo (body ||| VObj []))
  \/ unprintable (rawFrom (body ||| VObj [])) ->
  inboundEmail o body w
  = (Normal {| status_code := 500; json := JError "Webhook error" |}, w).
Proof.
  intros H.
  unfold inboundEmail, try_catch, bind, lift, ret.
  destruct (extractEmail (rawTo (body ||| VObj []))) as [toEmail|] eqn:Eto;
    [|reflexivity].
  destruct H as [H|H].
  - apply extractEmail_Throw_iff in H. congruence.
  - apply extractEmail_Throw_iff in H. rewrite H. reflexivity.
Qed.

Lemma inboundEmail_error_on_unprintable_witness :
  inboundEmail Sample.oracle Sample.no_to_bad_from
               (Sample.world [Sample.mailbox])
  = (Normal {| status_code := 500; json := JError "Webhook error" |},
     Sample.world [Sample.mailbox]).
Proof.
  apply (@inboundEmail_error_on_unprintable mongoose_casts Sample.oracle
           Sample.no_to_bad_from (Sample.world [Sample.mailbox])).
  right. apply unprintable_object with (v := VNum Sample.one). reflexivity.
Defined.

(** X3.  The webhook sends one of four responses, and it answers [ok]
    exactly when it has stored a message, which is exactly when it has
    emitted an event. *)
Theorem inboundEmail_ok_iff_stored {mongoose : Mongoose} o body w :
  exists resp w',
    inboundEmail o body w = (Normal resp, w')
    /\ (resp = {| status_code := 500; json := JError "Webhook error" |}
        \/ resp = {| status_code := 200;
                     json := JStatus "ignored_no_to_email" |}
        \/ resp = {| status_code := 200;
                     json := JStatus "ignored_no_mailbox" |}
        \/ resp = {| status_code := 200; json := JStatus "ok" |})
    /\ (resp = {| status_code := 200; json := JStatus "ok" |} <->
        exists m, messages w' = messages w ++ [m])
    /\ (resp = {| status_code := 200; json := JStatus "ok" |} <->
        exists e, emitted w' = emitted w ++ [e]).
Proof.
  destruct (inboundEmail_outcome o body w) as (resp & w' & E & Ho).
  exists resp, w'. split; [exact E|].
  destruct Ho;
    try (split; [tauto|]; split;
         (split; [discriminate |
                  intros (x & Hx); exfalso; exact (@not_self_snoc _ _ _ Hx)])).
  split; [tauto|]. split; (split; [intros _; eexists; reflexivity | reflexivity]).
Qed.

(** X4.  A message the webhook stores has the normalised destination as
    [to], which is not empty; its [from] is the normalised sender, or
    [unknown@unknown] when that is empty, so never empty; [subject],
    [text] and [html] are the casts of the first truthy aliases;
    [receivedAt] is the clock reading and [isRead] is false. *)
Theorem inboundEmail_stored_fields {mongoose : Mongoose}
    o body w resp w' m :
  inboundEmail o body w = (Normal resp, w') ->
  messages w' = messages w ++ [m] ->
  normalized_to body = Normal m.(messageSchema.to)
  /\ m.(messageSchema.to) <> []
  /\ m.(messageSchema.from) <> []
  /\ (normalized_from body = Normal m.(messageSchema.from)
      \/ (normalized_from body = Normal []
          /\ m.(messageSchema.from) = u "unknown@unknown"))
  /\ casts body m.(messageSchema.subject) m.(messageSchema.text)
           m.(messageSchema.html)
  /\ m.(messageSchema.receivedAt) = date_now o 0
  /\ m.(messageSchema.isRead) = false
  /\ m.(messageSchema._id) = objectId o.
Proof.
  intros H Hm. apply inboundEmail_inv in H.
  destruct (@Outcome_new_message _ _ _ _ _ _ _ H Hm)
    as (toEmail & fromEmail & mb & s & t & h
        & Hto & Hne & Hfrom & _ & Hc & -> & _ & _).
  simpl. split; [exact Hto|]. split; [exact Hne|].
  split; [destruct fromEmail; discriminate|].
  split; [destruct fromEmail; [right; split; [exact Hfrom|reflexivity]
                              | left; exact Hfrom]|].
  split; [exact Hc|]. repeat split.
Qed.

Lemma inboundEmail_stored_fields_witness :
  normalized_to Sample.hi_payload = Normal Sample.ingested.(messageSchema.to)
  /\ Sample.ingested.(messageSchema.to) <> []
  /\ Sample.ingested.(messageSchema.from) <> []
  /\ (normalized_from Sample.hi_payload
      = Normal Sample.ingested.(messageSchema.from)
      \/ (normalized_from Sample.hi_payload = Normal []
          /\ Sample.ingested.(messageSchema.from) = u "unknown@unknown"))
  /\ casts Sample.hi_payload Sample.ingested.(messageSchema.subject)
           Sample.ingested.(messageSchema.text)
           Sample.ingested.(messageSchema.html)
  /\ Sample.ingested.(messageSchema.receivedAt) = date_now Sample.oracle 0
  /\ Sample.ingested.(messageSchema.isRead) = false
  /\ Sample.ingested.(messageSchema._id) = objectId Sample.oracle.
Proof.
  apply (@inboundEmail_stored_fields mongoose_casts Sample.oracle
           Sample.hi_payload (Sample.world [Sample.mailbox])
           (acknowledged "ok")
           {| mailboxes := [Sample.mailbox];
              messages := [Sample.ingested];
              emitted := [{| room := u "mailbox:65a1b2c3d4e5f60718293a00";
                             event := "newMessage";
                             payload := newMessage_payload Sample.ingested |}] |}
           Sample.ingested).
  - vm_compute. reflexivity.
  - reflexivity.
Defined.

(** X5.  A request body that is not an object (absent, [null], an
    array, a primitive) and the empty object name no destination: the
    webhook answers 200 with [ignored_no_to_email] without reading the
    store and leaves the state as it was. *)
Theorem inboundEmail_no_object {mongoose : Mongoose} o body w :
  (forall props, body = VObj props -> props = []) ->
  inboundEmail o body w
  = (Normal {| status_code := 200; json := JStatus "ignored_no_to_email" |},
     w).
Proof.
  intros H.
  assert (Hget : forall name, get (body ||| VObj []) name = VUndefined).
  { intros name. unfold or. destruct (truthy body); [|reflexivity].
    destruct body; try reflexivity. rewrite (H props eq_refl). reflexivity. }
  unfold inboundEmail, try_catch, bind, lift, ret, rawTo, rawFrom.
  rewrite !Hget. reflexivity.
Qed.

Lemma inboundEmail_no_object_witness :
  inboundEmail Sample.oracle (VArr [VStr (u "a@b.com")])
               (Sample.world [Sample.mailbox])
  = (Normal {| status_code := 200; json := JStatus "ignored_no_to_email" |},
     Sample.world [Sample.mailbox]).
Proof.
  apply (@inboundEmail_no_object mongoose_casts Sample.oracle
           (VArr [VStr (u "a@b.com")]) (Sample.world [Sample.mailbox])).
  intros props Hp. discriminate Hp.
Defined.

(** The successful path, given the mailbox the lookup finds. *)
Lemma inboundEmail_found {mongoose : Mongoose}
    o body w toEmail fromEmail s t h mb :
  normalized_to body = Normal toEmail -> toEmail <> [] ->
  normalized_from body = Normal fromEmail ->
  read_ok o = true -> write_ok o = true ->
  casts body s t h ->
  find (active_for toEmail) (mailboxes w) = Some mb ->
  inboundEmail o body w
  = (Normal {| status_code := 200; json := JStatus "ok" |},
     {| mailboxes := mailboxes w;
        messages := messages w ++ [ingested o mb toEmail fromEmail s t h];
        emitted := emitted w
                   ++ [{| room := u "mailbox:" ++ mb.(mailboxSchema._id);
                          event := "newMessage";
                          payload :=
                            newMessage_payload
                              (ingested o mb toEmail fromEmail s t h) |}] |}).
Proof.
  intros Hto Hne Hfrom Hr Hw (Hs & Ht & Hh) Ef.
  unfold inboundEmail, try_catch, bind, lift, ret.
  fold (normalized_to body). fold (normalized_from body).
  rewrite Hto, Hfrom. destruct toEmail as [|c toEmail]; [contradiction|].
  unfold Mailbox.findOne. fold (active_for (c :: toEmail)).
  rewrite Hr, Ef. cbn [negb]. unfold Message.create.
  rewrite Hs, Ht, Hh, Hw. reflexivity.
Qed.

(** X6.  Delivery: when both addresses normalise, the destination is
    not empty, the store holds an active mailbox with that address and
    answers, and the body fields cast, the webhook answers [ok], appends
    the message for the first such mailbox and emits its notification to
    that mailbox's room. *)
Theorem inboundEmail_delivers {mongoose : Mongoose}
    o body w toEmail fromEmail s t h mb0 :
  normalized_to body = Normal toEmail -> toEmail <> [] ->
  normalized_from body = Normal fromEmail ->
  read_ok o = true -> write_ok o = true ->
  casts body s t h ->
  In mb0 (mailboxes w) ->
  mb0.(mailboxSchema.address) = toEmail ->
  mb0.(mailboxSchema.isActive) = true ->
  exists mb,
    find (active_for toEmail) (mailboxes w) = Some mb
    /\ inboundEmail o body w
       = (Normal {| status_code := 200; json := JStatus "ok" |},
          {| mailboxes := mailboxes w;
             messages := messages w
                         ++ [ingested o mb toEmail fromEmail s t h];
             emitted := emitted w
                        ++ [{| room := u "mailbox:" ++ mb.(mailboxSchema._id);
                               event := "newMessage";
                               payload :=
                                 newMessage_payload
                                   (ingested o mb toEmail fromEmail s t h) |}] |}).
Proof.
  intros Hto Hne Hfrom Hr Hw Hc Hin Ha Hact.
  destruct (find (active_for toEmail) (mailboxes w)) as [mb|] eqn:Ef.
  2:{ exfalso. apply (find_none _ _ Ef) in Hin.
      assert (Htrue : active_for toEmail mb0 = true)
        by (apply active_for_true; split; assumption).
      congruence. }
  exists mb. split; [reflexivity|].
  apply inboundEmail_found; assumption.
Qed.

Lemma inboundEmail_delivers_witness :
  exists mb,
    find (active_for (u "a@b.com")) [Sample.mailbox] = Some mb
    /\ inboundEmail Sample.oracle Sample.display_name_payload
                    (Sample.world [Sample.mailbox])
       = (Normal {| status_code := 200; json := JStatus "ok" |},
          {| mailboxes := [Sample.mailbox];
             messages := [] ++ [ingested Sample.oracle mb (u "a@b.com")
                                         (u "bob@x.org") [] (u "hello") []];
             emitted := [] ++ [{| room := u "mailbox:" ++ mb.(mailboxSchema._id);
                                  event := "newMessage";
                                  payload :=
                                    newMessage_payload
                                      (ingested Sample.oracle mb (u "a@b.com")
                                                (u "bob@x.org") []
                                                (u "hello") []) |}] |}).
Proof.
  apply (@inboundEmail_delivers mongoose_casts Sample.oracle
           Sample.display_name_payload (Sample.world [Sample.mailbox])
           (u "a@b.com") (u "bob@x.org") [] (u "hello") [] Sample.mailbox).
  - reflexivity.
  - discriminate.
  - reflexivity.
  - reflexivity.
  - reflexivity.
  - repeat split; reflexivity.
  - left. reflexivity.
  - reflexivity.
  - reflexivity.
Defined.

(** ** More on mailbox creation *)

Section CreateMailboxFacts.
Context {mongoose : Mongoose}.
Variables (o : Oracle) (env : Env) (w : World).

(** The two ways [POST /api/mailbox] ends. *)
Lemma createMailbox_cases :
  let address := generateRandomLocalPart (random_index o) None
                 ++ u "@" ++ mail_domain env in
  (createMailbox o env w
   = (Normal {| status_code := 500;
                json := JError "Failed to create mailbox" |}, w)
   /\ (expiry_date (date_now o 0) (ttlMinutes env) = None
       \/ write_ok o = false
       \/ exists old, In old (mailboxes w)
                      /\ old.(mailboxSchema.address) = address))
  \/ (exists e,
        expiry_date (date_now o 0) (ttlMinutes env) = Some e
        /\ write_ok o = true
        /\ (forall old, In old (mailboxes w) ->
                        old.(mailboxSchema.address) <> address)
        /\ createMailbox o env w
           = (Normal {| status_code := 200;
                        json := JMailbox (objectId o) address e |},
              {| mailboxes :=
                   mailboxes w
                   ++ [{| mailboxSchema._id := objectId o;
                          mailboxSchema.address := address;
                          mailboxSchema.userId := None;
                          mailboxSchema.createdAt := date_now o 1;
                          mailboxSchema.expiresAt := e;
                          mailboxSchema.isActive := true |}];
                 messages := messages w;
                 emitted := emitted w |})).
Proof.
  intros address.
  unfold createMailbox, try_catch, bind, ret, Mailbox.create.
  fold address.
  destruct (expiry_date (date_now o 0) (ttlMinutes env)) as [e|];
    [|left; split; [reflexivity | left; reflexivity]].
  destruct (write_ok o); cbn [negb];
    [|left; split; [reflexivity | right; left; reflexivity]].
  destruct (existsb (fun mb => JsString.eqb mb.(mailboxSchema.address) address)
                    (mailboxes w)) eqn:E.
  - left. split; [reflexivity|]. right. right.
    apply existsb_exists in E. destruct E as (old & Hin & Heq).
    apply eqb_eq in Heq. eauto.
  - right. exists e. split; [reflexivity|]. split; [reflexivity|].
    split; [|reflexivity].
    intros old Hin Heq.
    assert (Ht : existsb (fun mb => JsString.eqb mb.(mailboxSchema.address)
                                                 address)
                         (mailboxes w) = true).
    { apply existsb_exists. exists old. split; [exact Hin|].
      apply eqb_eq. exact Heq. }
    congruence.
Qed.

End CreateMailboxFacts.

(** X7.  [POST /api/mailbox] always responds and never touches the
    messages or the emitted events.  It either answers 500 and leaves
    the state as it was, or answers 200 and appends one mailbox, which is
    active, has no user, and whose id, address and expiry are the ones
    sent back in the response. *)
Theorem createMailbox_frame {mongoose : Mongoose} o env w :
  exists resp w',
    createMailbox o env w = (Normal resp, w')
    /\ messages w' = messages w
    /\ emitted w' = emitted w
    /\ ((resp = {| status_code := 500;
                   json := JError "Failed to create mailbox" |}
         /\ w' = w)
        \/ exists mb,
             mailboxes w' = mailboxes w ++ [mb]
             /\ resp = {| status_code := 200;
                          json := JMailbox mb.(mailboxSchema._id)
                                           mb.(mailboxSchema.address)
                                           mb.(mailboxSchema.expiresAt) |}
             /\ mb.(mailboxSchema.isActive) = true
             /\ mb.(mailboxSchema.userId) = None).
Proof.
  destruct (createMailbox_cases o env w) as [[E _] | (e & _ & _ & _ & E)];
    rewrite E; do 2 eexists; (split; [reflexivity|]).
  - split; [reflexivity|]. split; [reflexivity|]. left. split; reflexivity.
  - split; [reflexivity|]. split; [reflexivity|]. right.
    eexists. split; [reflexivity|]. repeat split.
Qed.

(** X8.  The addresses of the stored mailboxes stay pairwise distinct:
    a generated address that some stored mailbox already has is rejected
    with 500 and nothing is stored, and a store without duplicate
    addresses has none after the request either. *)
Theorem createMailbox_unique_addresses {mongoose : Mongoose}
    o env w resp w' :
  createMailbox o env w = (Normal resp, w') ->
  ((exists old, In old (mailboxes w)
                /\ old.(mailboxSchema.address)
                   = generateRandomLocalPart (random_index o) None
                     ++ u "@" ++ mail_domain env) ->
   status_code resp = 500 /\ w' = w)
  /\ (NoDup (map mailboxSchema.address (mailboxes w)) ->
      NoDup (map mailboxSchema.address (mailboxes w'))).
Proof.
  intros H.
  destruct (createMailbox_cases o env w) as [[E _] | (e & _ & _ & Hfresh & E)];
    rewrite E in H; inversion H; subst; clear H.
  - split; [intros _; split; reflexivity | intros Hn; exact Hn].
  - split.
    + intros (old & Hin & Ha). destruct (Hfresh old Hin Ha).
    + intros Hn. cbn [mailboxes]. rewrite map_app.
      apply NoDup_app; [exact Hn | |].
      * constructor; [intros []|constructor].
      * intros a Ha [Hb|[]]. cbn in Hb. subst a.
        apply in_map_iff in Ha. destruct Ha as (old & Ha & Hin).
        exact (Hfresh old Hin Ha).
Qed.

Lemma createMailbox_unique_addresses_witness :
  ((exists old, In old [Sample.created]
                /\ old.(mailboxSchema.address)
                   = generateRandomLocalPart (random_index Sample.oracle) None
                     ++ u "@" ++ mail_domain Sample.env) ->
   status_code {| status_code := 500;
                  json := JError "Failed to create mailbox" |} = 500
   /\ Sample.world [Sample.created] = Sample.world [Sample.created])
  /\ (NoDup (map mailboxSchema.address [Sample.created]) ->
      NoDup (map mailboxSchema.address
                 (mailboxes (Sample.world [Sample.created])))).
Proof.
  apply (@createMailbox_unique_addresses mongoose_casts Sample.oracle
           Sample.env (Sample.world [Sample.created])
           {| status_code := 500;
              json := JError "Failed to create mailbox" |}
           (Sample.world [Sample.created])).
  vm_compute. reflexivity.
Defined.

(** ** The single-message route and the listing after ingestion *)

Section ReadRoutes.
Context {mongoose : Mongoose}.

Lemma getMessage_run o id oid w :
  castObjectId id = Some oid -> read_ok o = true ->
  getMessage o id w
  = (Normal match find (fun m => JsString.eqb m.(messageSchema._id) oid)
                       (messages w) with
            | None => {| detail_status := 404;
                         detail_json := DError "Message not found" |}
            | Some msg => {| detail_status := 200;
                             detail_json := DMessage (detailed msg) |}
            end, w).
Proof.
  intros Hid Hr. unfold getMessage, try_catch, bind, ret, Message.findById.
  rewrite Hid, Hr. cbn [negb].
  destruct (find _ (messages w)); reflexivity.
Qed.

Lemma listMessages_run o id oid w :
  castObjectId id = Some oid -> read_ok o = true ->
  listMessages o id w
  = (Normal {| status_code := 200;
               json := JMessages
                         (map format
                            (Message.sort_desc
                               (filter (fun m => JsString.eqb
                                                   m.(messageSchema.mailboxId) oid)
                                       (messages w)))) |}, w).
Proof.
  intros Hid Hr.
  unfold listMessages, try_catch, bind, ret, Message.find_sorted.
  rewrite Hid, Hr. reflexivity.
Qed.

(** With distinct identifiers, the first message found for an
    identifier is the only one that has it. *)
Lemma find_by_id_unique (ms : list messageSchema.doc) m :
  NoDup (map messageSchema._id ms) -> In m ms ->
  find (fun x => JsString.eqb x.(messageSchema._id) m.(messageSchema._id)) ms
  = Some m.
Proof.
  induction ms as [|x r IH]; intros Hn Hin; [destruct Hin|].
  cbn [find]. inversion Hn as [|? ? Hx Hr]; subst.
  destruct (JsString.eqb x.(messageSchema._id) m.(messageSchema._id)) eqn:E.
  - apply eqb_eq in E. destruct Hin as [->|Hin]; [reflexivity|].
    exfalso. apply Hx. rewrite E. apply in_map. exact Hin.
  - destruct Hin as [->|Hin].
    + assert (Ht : JsString.eqb m.(messageSchema._id) m.(messageSchema._id)
                   = true) by (apply eqb_eq; reflexivity).
      congruence.
    + apply IH; assumption.
Qed.

End ReadRoutes.

(** X9.  For an identifier that casts to an [ObjectId] and a store that
    answers, [GET /api/messages/:id] answers 404 exactly when no stored
    message has that identifier; otherwise it answers 200 with a stored
    message of that identifier, all nine fields included, and when the
    stored identifiers are distinct that message is the only candidate.
    The state is left as it was. *)
Theorem getMessage_lookup {mongoose : Mongoose} o id oid w :
  castObjectId id = Some oid -> read_ok o = true ->
  exists resp,
    getMessage o id w = (Normal resp, w)
    /\ (detail_status resp = 404 <->
        forall m, In m (messages w) -> m.(messageSchema._id) <> oid)
    /\ (resp = {| detail_status := 404;
                  detail_json := DError "Message not found" |}
        \/ exists m, In m (messages w) /\ m.(messageSchema._id) = oid
                     /\ resp = {| detail_status := 200;
                                  detail_json := DMessage (detailed m) |})
    /\ (forall m, NoDup (map messageSchema._id (messages w)) ->
                  In m (messages w) -> m.(messageSchema._id) = oid ->
                  resp = {| detail_status := 200;
                            detail_json := DMessage (detailed m) |}).
Proof.
  intros Hid Hr. rewrite (@getMessage_run _ o id oid w Hid Hr).
  eexists. split; [reflexivity|].
  destruct (find (fun m => JsString.eqb m.(messageSchema._id) oid)
                 (messages w)) as [msg|] eqn:E.
  - apply find_some in E as Hs. destruct Hs as [Hin Heq].
    apply eqb_eq in Heq. split; [|split].
    + split; [discriminate|]. intros Hnone. destruct (Hnone msg Hin Heq).
    + right. exists msg. auto.
    + intros m Hn Hm Hmid.
      pose proof (@find_by_id_unique (messages w) m Hn Hm) as Hu.
      rewrite Hmid, E in Hu. inversion Hu. reflexivity.
  - split; [|split].
    + split; [|reflexivity]. intros _ m Hin Heq.
      apply (find_none _ _ E) in Hin. apply eqb_eq in Heq. congruence.
    + left. reflexivity.
    + intros m _ Hm Hmid. apply (find_none _ _ E) in Hm.
      apply eqb_eq in Hmid. congruence.
Qed.

Lemma getMessage_lookup_witness :
  exists resp,
    getMessage Sample.oracle (u "65A1B2C3D4E5F60718293A4B") Sample.inbox
    = (Normal resp, Sample.inbox)
    /\ (detail_status resp = 404 <->
        forall m, In m (messages Sample.inbox) ->
                  m.(messageSchema._id) <> u "65a1b2c3d4e5f60718293a4b")
    /\ (resp = {| detail_status := 404;
                  detail_json := DError "Message not found" |}
        \/ exists m, In m (messages Sample.inbox)
                     /\ m.(messageSchema._id) = u "65a1b2c3d4e5f60718293a4b"
                     /\ resp = {| detail_status := 200;
                                  detail_json := DMessage (detailed m) |})
    /\ (forall m, NoDup (map messageSchema._id (messages Sample.inbox)) ->
                  In m (messages Sample.inbox) ->
                  m.(messageSchema._id) = u "65a1b2c3d4e5f60718293a4b" ->
                  resp = {| detail_status := 200;
                            detail_json := DMessage (detailed m) |}).
Proof.
  apply (@getMessage_lookup mongoose_casts Sample.oracle
           (u "65A1B2C3D4E5F60718293A4B") (u "65a1b2c3d4e5f60718293a4b")
           Sample.inbox).
  - vm_compute. reflexivity.
  - reflexivity.
Defined.

(** X10.  Round trip: a message the webhook has stored under an
    identifier no earlier message has is returned by
    [GET /api/messages/:id], field for field, whenever its identifier
    casts to itself and the store answers. *)
Theorem getMessage_after_ingest {mongoose : Mongoose}
    o body w resp w' m o' id :
  inboundEmail o body w = (Normal resp, w') ->
  messages w' = messages w ++ [m] ->
  (forall old, In old (messages w) ->
               old.(messageSchema._id) <> m.(messageSchema._id)) ->
  castObjectId id = Some m.(messageSchema._id) ->
  read_ok o' = true ->
  getMessage o' id w'
  = (Normal {| detail_status := 200;
               detail_json :=
                 DMessage {| d_id := m.(messageSchema._id);
                             d_mailboxId := m.(messageSchema.mailboxId);
                             d_from := m.(messageSchema.from);
                             d_to := m.(messageSchema.to);
                             d_subject := m.(messageSchema.subject);
                             d_text := m.(messageSchema.text);
                             d_html := m.(messageSchema.html);
                             d_receivedAt := m.(messageSchema.receivedAt);
                             d_isRead := false |} |}, w').
Proof.
  intros H Hm Hfresh Hid Hr.
  rewrite (@getMessage_run _ o' id _ w' Hid Hr), Hm.
  assert (Hnone : find (fun x => JsString.eqb x.(messageSchema._id)
                                              m.(messageSchema._id))
                       (messages w) = None).
  { destruct (find _ (messages w)) as [x|] eqn:E; [|reflexivity].
    apply find_some in E. destruct E as [Hin Heq]. apply eqb_eq in Heq.
    destruct (Hfresh x Hin Heq). }
  assert (Hread : m.(messageSchema.isRead) = false).
  { apply inboundEmail_inv in H.
    destruct (@Outcome_new_message _ _ _ _ _ _ _ H Hm)
      as (? & ? & ? & ? & ? & ? & _ & _ & _ & _ & _ & -> & _).
    reflexivity. }
  assert (Hfind : find (fun x => JsString.eqb x.(messageSchema._id)
                                              m.(messageSchema._id))
                       (messages w ++ [m]) = Some m).
  { clear Hm. induction (messages w) as [|x r IH]; cbn [app find].
    - assert (Ht : JsString.eqb m.(messageSchema._id) m.(messageSchema._id)
                   = true) by (apply eqb_eq; reflexivity).
      rewrite Ht. reflexivity.
    - cbn [find] in Hnone.
      destruct (JsString.eqb x.(messageSchema._id) m.(messageSchema._id));
        [discriminate|].
      apply IH; [|exact Hnone]. intros old Hin. apply Hfresh. right. exact Hin. }
  rewrite Hfind. unfold detailed. rewrite Hread. reflexivity.
Qed.

Lemma getMessage_after_ingest_witness :
  getMessage Sample.oracle (u "65a1b2c3d4e5f60718293a4b")
    {| mailboxes := [Sample.mailbox];
       messages := [Sample.ingested];
       emitted := [{| room := u "mailbox:65a1b2c3d4e5f60718293a00";
                      event := "newMessage";
                      payload := newMessage_payload Sample.ingested |}] |}
  = (Normal {| detail_status := 200;
               detail_json :=
                 DMessage {| d_id := u "65a1b2c3d4e5f60718293a4b";
                             d_mailboxId := u "65a1b2c3d4e5f60718293a00";
                             d_from := u "unknown@unknown";
                             d_to := u "a@b.com";
                             d_subject := u "hi";
                             d_text := [];
                             d_html := [];
                             d_receivedAt := 1700000000000%Z;
                             d_isRead := false |} |},
     {| mailboxes := [Sample.mailbox];
        messages := [Sample.ingested];
        emitted := [{| room := u "mailbox:65a1b2c3d4e5f60718293a00";
                       event := "newMessage";
                       payload := newMessage_payload Sample.ingested |}] |}).
Proof.
  apply (@getMessage_after_ingest mongoose_casts Sample.oracle
           Sample.hi_payload (Sample.world [Sample.mailbox])
           (acknowledged "ok")
           {| mailboxes := [Sample.mailbox];
              messages := [Sample.ingested];
              emitted := [{| room := u "mailbox:65a1b2c3d4e5f60718293a00";
                             event := "newMessage";
                             payload := newMessage_payload Sample.ingested |}] |}
           Sample.ingested Sample.oracle (u "65a1b2c3d4e5f60718293a4b")).
  - vm_compute. reflexivity.
  - reflexivity.
  - intros old [].
  - vm_compute. reflexivity.
  - reflexivity.
Defined.

Lemma filter_snoc {A} (f : A -> bool) (l : list A) (x : A) :
  filter f (l ++ [x]) = filter f l ++ (if f x then [x] else []).
Proof. rewrite filter_app. reflexivity. Qed.

(** X11.  After the webhook has stored a message, the listing of its
    mailbox is the earlier listing with that message added, and the
    listing of every other mailbox is the same as before. *)
Theorem listMessages_after_ingest {mongoose : Mongoose}
    o body w resp w' m o' id oid :
  inboundEmail o body w = (Normal resp, w') ->
  messages w' = messages w ++ [m] ->
  castObjectId id = Some oid -> read_ok o' = true ->
  exists before after,
    listMessages o' id w
    = (Normal {| status_code := 200; json := JMessages (map format before) |},
       w)
    /\ listMessages o' id w'
       = (Normal {| status_code := 200;
                    json := JMessages (map format after) |}, w')
    /\ (oid = m.(messageSchema.mailboxId) -> Permutation after (m :: before))
    /\ (oid <> m.(messageSchema.mailboxId) -> after = before).
Proof.
  intros _ Hm Hid Hr.
  rewrite (@listMessages_run _ o' id oid w Hid Hr).
  rewrite (@listMessages_run _ o' id oid w' Hid Hr).
  do 2 eexists. split; [reflexivity|]. split; [reflexivity|].
  rewrite Hm, filter_snoc.
  destruct (JsString.eqb m.(messageSchema.mailboxId) oid) eqn:E.
  - apply eqb_eq in E. split; [|congruence]. intros _.
    eapply Permutation_trans;
      [apply Permutation_sym, MessageSort.sort_desc_perm|].
    eapply Permutation_trans;
      [apply Permutation_sym, Permutation_cons_append|].
    apply perm_skip. apply MessageSort.sort_desc_perm.
  - split.
    + intros ->. assert (Ht : JsString.eqb m.(messageSchema.mailboxId)
                                           m.(messageSchema.mailboxId) = true)
        by (apply eqb_eq; reflexivity).
      congruence.
    + intros _. rewrite app_nil_r. reflexivity.
Qed.

Lemma listMessages_after_ingest_witness :
  exists before after,
    listMessages Sample.oracle (u "65a1b2c3d4e5f60718293a00")
                 (Sample.world [Sample.mailbox])
    = (Normal {| status_code := 200; json := JMessages (map format before) |},
       Sample.world [Sample.mailbox])
    /\ listMessages Sample.oracle (u "65a1b2c3d4e5f60718293a00")
                    Sample.after_hi
       = (Normal {| status_code := 200;
                    json := JMessages (map format after) |}, Sample.after_hi)
    /\ (u "65a1b2c3d4e5f60718293a00"
        = Sample.ingested.(messageSchema.mailboxId) ->
        Permutation after (Sample.ingested :: before))
    /\ (u "65a1b2c3d4e5f60718293a00"
        <> Sample.ingested.(messageSchema.mailboxId) -> after = before).
Proof.
  apply (@listMessages_after_ingest mongoose_casts Sample.oracle
           Sample.hi_payload (Sample.world [Sample.mailbox])
           (acknowledged "ok") Sample.after_hi Sample.ingested
           Sample.oracle (u "65a1b2c3d4e5f60718293a00")
           (u "65a1b2c3d4e5f60718293a00")).
  - vm_compute. reflexivity.
  - reflexivity.
  - vm_compute. reflexivity.
  - reflexivity.
Defined.

Lemma sorted_head_newest (l : list messageSchema.doc) m :
  StronglySorted MessageOrder.newer_or_equal l ->
  In m l ->
  (forall x, In x l ->
             x = m \/ (x.(messageSchema.receivedAt)
                       < m.(messageSchema.receivedAt))%Z) ->
  exists rest, l = m :: rest.
Proof.
  intros Hs Hin Hnew. destruct l as [|h t]; [destruct Hin|].
  destruct Hin as [->|Hin]; [eauto|].
  destruct (Hnew h (or_introl eq_refl)) as [->|Hlt]; [eauto|].
  inversion Hs as [|? ? _ Hh]; subst.
  rewrite Forall_forall in Hh. specialize (Hh m Hin).
  unfold MessageOrder.newer_or_equal in Hh. lia.
Qed.

(** X12.  Newest first: when the message the webhook has stored is
    more recent than every earlier message of its mailbox, it is the
    first entry of that mailbox's listing. *)
Theorem listMessages_newest_at_head {mongoose : Mongoose}
    o body w resp w' m o' id :
  inboundEmail o body w = (Normal resp, w') ->
  messages w' = messages w ++ [m] ->
  (forall old, In old (messages w) ->
               old.(messageSchema.mailboxId) = m.(messageSchema.mailboxId) ->
               (old.(messageSchema.receivedAt)
                < m.(messageSchema.receivedAt))%Z) ->
  castObjectId id = Some m.(messageSchema.mailboxId) ->
  read_ok o' = true ->
  exists rest,
    listMessages o' id w'
    = (Normal {| status_code := 200;
                 json := JMessages (format m :: map format rest) |}, w').
Proof.
  intros _ Hm Hold Hid Hr.
  rewrite (@listMessages_run _ o' id _ w' Hid Hr).
  set (own := filter (fun x => JsString.eqb x.(messageSchema.mailboxId)
                                            m.(messageSchema.mailboxId))
                     (messages w')).
  assert (Hp : Permutation own (Message.sort_desc own))
    by apply MessageSort.sort_desc_perm.
  destruct (@sorted_head_newest (Message.sort_desc own) m) as (rest & E).
  - apply MessageSort.sort_desc_sorted.
  - apply (Permutation_in _ Hp). apply filter_In. split.
    + rewrite Hm. apply in_or_app. right. left. reflexivity.
    + apply eqb_eq. reflexivity.
  - intros x Hx. apply (Permutation_in _ (Permutation_sym Hp)) in Hx.
    apply filter_In in Hx. destruct Hx as [Hx Hmb]. apply eqb_eq in Hmb.
    rewrite Hm in Hx. apply in_app_or in Hx. destruct Hx as [Hx|[<-|[]]].
    + right. apply Hold; assumption.
    + left. reflexivity.
  - exists rest. rewrite E. reflexivity.
Qed.

Lemma listMessages_newest_at_head_witness :
  exists rest,
    listMessages Sample.oracle (u "65a1b2c3d4e5f60718293a00")
      {| mailboxes := [Sample.mailbox];
         messages := messages Sample.with_earlier ++ [Sample.ingested];
         emitted := [Sample.notification] |}
    = (Normal {| status_code := 200;
                 json := JMessages (format Sample.ingested :: map format rest) |},
       {| mailboxes := [Sample.mailbox];
          messages := messages Sample.with_earlier ++ [Sample.ingested];
          emitted := [Sample.notification] |}).
Proof.
  apply (@listMessages_newest_at_head mongoose_casts Sample.oracle
           Sample.hi_payload Sample.with_earlier
           (acknowledged "ok")
           {| mailboxes := [Sample.mailbox];
              messages := messages Sample.with_earlier ++ [Sample.ingested];
              emitted := [Sample.notification] |}
           Sample.ingested
           Sample.oracle (u "65a1b2c3d4e5f60718293a00")).
  - vm_compute. reflexivity.
  - reflexivity.
  - intros old [<-|[]] _. vm_compute. reflexivity.
  - vm_compute. reflexivity.
  - reflexivity.
Defined.

(** ** From creation to the listing *)

Lemma find_snoc_fresh {A} (f : A -> bool) (l : list A) (x : A) :
  (forall y, In y l -> f y = false) -> f x = true ->
  find f (l ++ [x]) = Some x.
Proof.
  intros Hl Hx. induction l as [|y r IH]; cbn [app find].
  - rewrite Hx. reflexivity.
  - rewrite (Hl y (or_introl eq_refl)). apply IH.
    intros z Hz. apply Hl. right. exact Hz.
Qed.

(** X13.  From creation to the listing: when [POST /api/mailbox] has
    answered with an id and an address, a webhook payload whose
    destination normalises to that address (with a store that answers
    and fields that cast) is stored for the mailbox with that id, and the
    listing for that id then contains the message. *)
Theorem mailbox_round_trip {mongoose : Mongoose}
    o1 env w r1 w1 id addr exp o2 body fromEmail s t h o3 :
  createMailbox o1 env w = (Normal r1, w1) ->
  json r1 = JMailbox id addr exp ->
  normalized_to body = Normal addr ->
  normalized_from body = Normal fromEmail ->
  casts body s t h ->
  read_ok o2 = true -> write_ok o2 = true ->
  castObjectId id = Some id -> read_ok o3 = true ->
  exists m w2 listed,
    inboundEmail o2 body w1
    = (Normal {| status_code := 200; json := JStatus "ok" |}, w2)
    /\ messages w2 = messages w ++ [m]
    /\ m.(messageSchema.mailboxId) = id
    /\ m.(messageSchema.to) = addr
    /\ listMessages o3 id w2
       = (Normal {| status_code := 200;
                    json := JMessages (map format listed) |}, w2)
    /\ In m listed.
Proof.
  intros Hc Hj Hto Hfrom Hcasts Hr2 Hw2 Hid Hr3.
  destruct (createMailbox_cases o1 env w)
    as [[E _] | (e & _ & _ & Hfresh & E)];
    rewrite E in Hc; inversion Hc; subst r1 w1; clear Hc E;
    cbn [json] in Hj; [discriminate|].
  inversion Hj; subst id addr exp; clear Hj.
  set (address := generateRandomLocalPart (random_index o1) None
                  ++ u "@" ++ mail_domain env) in *.
  set (mb := {| mailboxSchema._id := objectId o1;
                mailboxSchema.address := address;
                mailboxSchema.userId := None;
                mailboxSchema.createdAt := date_now o1 1;
                mailboxSchema.expiresAt := e;
                mailboxSchema.isActive := true |}).
  set (w1 := {| mailboxes := mailboxes w ++ [mb]; messages := messages w;
                emitted := emitted w |}).
  assert (Hne : address <> []).
  { unfold address. intros Hnil. apply app_eq_nil in Hnil.
    destruct Hnil as [_ Hnil]. discriminate Hnil. }
  assert (Hf : find (active_for address) (mailboxes w1) = Some mb).
  { apply find_snoc_fresh.
    - intros y Hy. destruct (active_for address y) eqn:Ey; [|reflexivity].
      apply active_for_true in Ey. destruct Ey as [Ey _].
      destruct (Hfresh y Hy Ey).
    - apply active_for_true. split; reflexivity. }
  set (m := ingested o2 mb address fromEmail s t h).
  pose proof (@inboundEmail_found _ o2 body w1 address fromEmail s t h mb
                Hto Hne Hfrom Hr2 Hw2 Hcasts Hf) as Hrun.
  fold m in Hrun.
  match type of Hrun with _ = (_, ?x) => set (w2 := x) in * end.
  exists m, w2, (Message.sort_desc
                   (filter (fun x => JsString.eqb x.(messageSchema.mailboxId)
                                                  (objectId o1))
                           (messages w2))).
  split; [exact Hrun|]. split; [reflexivity|]. split; [reflexivity|].
  split; [reflexivity|].
  split; [apply listMessages_run; assumption|].
  apply (Permutation_in _ (MessageSort.sort_desc_perm _)).
  apply filter_In. split.
  - apply in_or_app. right. left. reflexivity.
  - apply eqb_eq. reflexivity.
Qed.

Lemma mailbox_round_trip_witness :
  exists m w2 listed,
    inboundEmail Sample.oracle Sample.to_created_payload
                 {| mailboxes := [Sample.created]; messages := [];
                    emitted := [] |}
    = (Normal {| status_code := 200; json := JStatus "ok" |}, w2)
    /\ messages w2 = [] ++ [m]
    /\ m.(messageSchema.mailboxId) = objectId Sample.oracle
    /\ m.(messageSchema.to) = u "abcdefghij@example.com"
    /\ listMessages Sample.oracle (objectId Sample.oracle) w2
       = (Normal {| status_code := 200;
                    json := JMessages (map format listed) |}, w2)
    /\ In m listed.
Proof.
  apply (@mailbox_round_trip mongoose_casts Sample.oracle Sample.env
           (Sample.world [])
           {| status_code := 200;
              json := JMailbox (objectId Sample.oracle)
                               (u "abcdefghij@example.com")
                               1700003600000%Z |}
           {| mailboxes := [Sample.created]; messages := [];
              emitted := [] |}
           (objectId Sample.oracle) (u "abcdefghij@example.com")
           1700003600000%Z
           Sample.oracle Sample.to_created_payload [] [] [] []
           Sample.oracle).
  - vm_compute. reflexivity.
  - reflexivity.
  - reflexivity.
  - reflexivity.
  - repeat split; reflexivity.
  - reflexivity.
  - reflexivity.
  - vm_compute. reflexivity.
  - reflexivity.
Defined.

(** ** Rooms and notifications *)

Module SocketFacts.
Import Socket.

Lemma member_In socket room rooms :
  member socket room rooms = true <-> In (socket, room) rooms.
Proof.
  unfold member. rewrite existsb_exists. split.
  - intros ([s r] & Hin & H). apply andb_true_iff in H. destruct H as [Hs Hr].
    apply eqb_eq in Hs. apply eqb_eq in Hr. cbn in Hs, Hr. subst. exact Hin.
  - intros Hin. exists (socket, room). split; [exact Hin|].
    apply andb_true_iff. split; apply eqb_eq; reflexivity.
Qed.

Lemma join_In socket room rooms p :
  In p (join socket room rooms) <-> p = (socket, room) \/ In p rooms.
Proof.
  unfold join. destruct (member socket room rooms) eqn:E.
  - apply member_In in E. split; [auto|]. intros [->|H]; assumption.
  - cbn [In]. split; intros [H|H]; auto.
Qed.

Lemma recipients_In rooms e socket :
  In socket (recipients rooms e) <-> In (socket, room e) rooms.
Proof.
  unfold recipients. rewrite in_map_iff. split.
  - intros ([s r] & Hs & Hin). apply filter_In in Hin.
    destruct Hin as [Hin Hr]. apply eqb_eq in Hr. cbn in Hs, Hr. subst.
    exact Hin.
  - intros Hin. exists (socket, room e). split; [reflexivity|].
    apply filter_In. split; [exact Hin|]. apply eqb_eq. reflexivity.
Qed.

End SocketFacts.

(** X14.  The room a socket joins for a mailbox identifier is the room
    the webhook emits to for a message of that mailbox.  A socket that
    has joined with the identifier of the message's mailbox is among the
    recipients of the notification; joining with any other identifier
    changes nobody's receipt of it, and a join changes the receipt of no
    other socket. *)
Theorem subscriber_receives {mongoose : Mongoose}
    o body w resp w' m e socket mailboxId joined rooms :
  inboundEmail o body w = (Normal resp, w') ->
  messages w' = messages w ++ [m] ->
  emitted w' = emitted w ++ [e] ->
  ToString mailboxId = Normal joined ->
  exists rooms',
    Socket.joinMailbox socket mailboxId rooms = Normal rooms'
    /\ (joined = m.(messageSchema.mailboxId) ->
        In socket (Socket.recipients rooms' e))
    /\ (joined <> m.(messageSchema.mailboxId) ->
        forall s, In s (Socket.recipients rooms' e)
                  <-> In s (Socket.recipients rooms e))
    /\ (forall s, s <> socket ->
                  In s (Socket.recipients rooms' e)
                  <-> In s (Socket.recipients rooms e)).
Proof.
  intros H Hm He Hs. apply inboundEmail_inv in H.
  destruct (@Outcome_new_message _ _ _ _ _ _ _ H Hm)
    as (toEmail & fromEmail & mb & s & t & h
        & _ & _ & _ & _ & _ & -> & _ & He').
  rewrite He in He'. apply app_inj_tail in He'. destruct He' as [_ ->].
  cbn [messageSchema.mailboxId ingested].
  unfold Socket.joinMailbox. rewrite Hs. eexists. split; [reflexivity|].
  split; [|split].
  - intros ->. apply SocketFacts.recipients_In. cbn [room].
    apply SocketFacts.join_In. left. reflexivity.
  - intros Hne s0. rewrite !SocketFacts.recipients_In. cbn [room].
    rewrite SocketFacts.join_In. split; [|auto].
    intros [Heq|Hin]; [|exact Hin]. exfalso.
    injection Heq as _ Hroom. congruence.
  - intros s0 Hne. rewrite !SocketFacts.recipients_In. cbn [room].
    rewrite SocketFacts.join_In. split; [|auto].
    intros [Heq|Hin]; [|exact Hin]. exfalso.
    injection Heq as Hs0 _. congruence.
Qed.

Lemma subscriber_receives_witness :
  exists rooms',
    Socket.joinMailbox (u "socket-1") (VStr (u "65a1b2c3d4e5f60718293a00")) []
    = Normal rooms'
    /\ (u "65a1b2c3d4e5f60718293a00" = Sample.ingested.(messageSchema.mailboxId) ->
        In (u "socket-1")
           (Socket.recipients rooms' (Sample.notification)))
    /\ (u "65a1b2c3d4e5f60718293a00" <> Sample.ingested.(messageSchema.mailboxId) ->
        forall s, In s (Socket.recipients rooms' (Sample.notification))
                  <-> In s (Socket.recipients [] (Sample.notification)))
    /\ (forall s, s <> u "socket-1" ->
                  In s (Socket.recipients rooms' (Sample.notification))
                  <-> In s (Socket.recipients [] (Sample.notification))).
Proof.
  apply (@subscriber_receives mongoose_casts Sample.oracle
           Sample.hi_payload (Sample.world [Sample.mailbox])
           (acknowledged "ok") Sample.after_hi Sample.ingested
           Sample.notification (u "socket-1")
           (VStr (u "65a1b2c3d4e5f60718293a00"))
           (u "65a1b2c3d4e5f60718293a00") []).
  - vm_compute. reflexivity.
  - reflexivity.
  - reflexivity.
  - reflexivity.
Defined.

(** ** Characters of a generated local part *)

Lemma chars_NoDup : NoDup chars.
Proof.
  unfold chars.
  repeat (constructor; [vm_compute; intuition discriminate|]).
  constructor.
Qed.

(** With draws inside [chars], the loop appends the drawn characters
    in order. *)
Lemma generate_loop_closed rnd n :
  forall i local,
    (forall j, i <= j < i + n -> rnd j < List.length chars) ->
    generate_loop rnd n i local
    = local ++ map (fun j => nth (rnd j) chars 0%N) (seq i n).
Proof.
  induction n as [|n IH]; intros i local Hr; cbn [generate_loop seq map].
  - symmetry. apply app_nil_r.
  - assert (Hi : rnd i < List.length chars) by (apply Hr; lia).
    unfold append_char_at.
    rewrite (nth_error_nth' chars 0%N Hi).
    rewrite IH by (intros j Hj; apply Hr; lia).
    rewrite <- app_assoc. reflexivity.
Qed.

(** X15.  With draws inside [chars], the character at each position of
    a generated local part is the one the draw for that position selects,
    and two runs give the same local part exactly when they make the same
    draws: the alphabet has no repeated character, so the text loses
    nothing of the draws. *)
Theorem generateRandomLocalPart_injective
    (rnd1 rnd2 : nat -> nat) (length : option nat) :
  (forall i, i < default_length length -> rnd1 i < List.length chars) ->
  (forall i, i < default_length length -> rnd2 i < List.length chars) ->
  (forall i, i < default_length length ->
             nth_error (generateRandomLocalPart rnd1 length) i
             = nth_error chars (rnd1 i))
  /\ (generateRandomLocalPart rnd1 length = generateRandomLocalPart rnd2 length
      <-> forall i, i < default_length length -> rnd1 i = rnd2 i).
Proof.
  intros H1 H2. unfold generateRandomLocalPart.
  rewrite !generate_loop_closed by (intros j Hj; (apply H1 || apply H2); lia).
  cbn [app]. split.
  - intros i Hi.
    rewrite nth_error_map, nth_error_seq.
    destruct (Nat.ltb_spec i (default_length length)) as [_|Hge]; [|lia].
    cbn [option_map Nat.add]. symmetry. apply nth_error_nth'. apply H1. exact Hi.
  - split.
    + intros E i Hi.
      assert (Hin : In i (seq 0 (default_length length)))
        by (apply in_seq; lia).
      pose proof (proj1 (@map_ext_in_iff _ _ _ _ _) E i Hin) as Hn.
      cbv beta in Hn.
      apply (proj1 (NoDup_nth chars 0%N) chars_NoDup); auto.
    + intros E. apply map_ext_in. intros i Hi. apply in_seq in Hi.
      rewrite E by lia. reflexivity.
Qed.

Lemma generateRandomLocalPart_injective_witness :
  (forall i, i < default_length None ->
             nth_error (generateRandomLocalPart (fun i => i) None) i
             = nth_error chars i)
  /\ (generateRandomLocalPart (fun i => i) None
      = generateRandomLocalPart (fun i => 35 - i) None
      <-> forall i, i < default_length None -> i = 35 - i).
Proof.
  apply (@generateRandomLocalPart_injective (fun i => i) (fun i => 35 - i)
           None).
  - intros i Hi. change (List.length chars) with 36.
    unfold default_length in Hi. lia.
  - intros i Hi. change (List.length chars) with 36. lia.
Defined.

(** ** Normalising twice *)

Module TrimFacts.

Lemma trim_start_clean s : clean_head (trim_start s).
Proof.
  induction s as [|c r IH]; cbn [trim_start]; [exact I|].
  destruct (is_trimmed_char c) eqn:E; [exact IH | exact E].
Qed.

Lemma trim_start_fixed s : clean_head s -> trim_start s = s.
Proof.
  destruct s as [|c r]; [reflexivity|]. cbn [clean_head trim_start].
  intros ->. reflexivity.
Qed.

Lemma trim_start_suffix s : exists p, s = p ++ trim_start s.
Proof.
  induction s as [|c r (p & IH)]; cbn [trim_start]; [exists []; reflexivity|].
  destruct (is_trimmed_char c).
  - exists (c :: p). cbn [app]. rewrite <- IH. reflexivity.
  - exists []. reflexivity.
Qed.

(** The trimmed string is the middle of the string. *)
Lemma trim_infix s : exists p q, s = p ++ trim s ++ q.
Proof.
  unfold trim. destruct (trim_start_suffix s) as (p & Hp).
  destruct (trim_start_suffix (rev (trim_start s))) as (q & Hq).
  exists p, (rev q). rewrite <- rev_app_distr, <- Hq, rev_involutive.
  exact Hp.
Qed.

Lemma trim_idempotent s : trim (trim s) = trim s.
Proof.
  unfold trim.
  set (a := trim_start s).
  set (b := trim_start (rev a)).
  assert (Hb : clean_head b) by apply trim_start_clean.
  assert (Ha : clean_head a) by apply trim_start_clean.
  destruct (trim_start_suffix (rev a)) as (q & Hq). fold b in Hq.
  assert (Hrb : clean_head (rev b)).
  { apply (f_equal (@rev _)) in Hq.
    rewrite rev_involutive, rev_app_distr in Hq.
    destruct (rev b) as [|c r]; [exact I|].
    rewrite Hq in Ha. exact Ha. }
  rewrite (@trim_start_fixed (rev b) Hrb), rev_involutive,
    (@trim_start_fixed b Hb).
  reflexivity.
Qed.

End TrimFacts.

Lemma capture_has_no_match (c : jsstring) :
  ~ In AngleRegex.gt (tl c) -> AngleRegex.search (trim c) = None.
Proof.
  intros Hg. destruct (AngleRegex.search (trim c)) as [c'|] eqn:E;
    [|reflexivity].
  exfalso. apply Hg.
  destruct (AngleRegexFacts.search_sound _ E)
    as (pre & post & (Hs & Hne & _) & _).
  destruct (TrimFacts.trim_infix c) as (p & q & Hc).
  rewrite Hs in Hc. rewrite Hc.
  replace (p ++ (pre ++ [AngleRegex.lt] ++ c' ++ [AngleRegex.gt] ++ post) ++ q)
    with ((p ++ pre) ++ AngleRegex.lt :: (c' ++ AngleRegex.gt :: (post ++ q)))
    by (repeat (rewrite <- ?app_assoc; cbn [app]); reflexivity).
  destruct (p ++ pre) as [|x l]; cbn [app tl].
  - apply in_or_app. right. left. reflexivity.
  - apply in_or_app. right. right. apply in_or_app. right. left. reflexivity.
Qed.

(** X16.  Normalising a normalised address finds no bracketed part any
    more and only trims: the result of a match contains no further match.
    When the raw text had no bracketed part, its normalised form is
    unchanged by a second normalisation. *)
Theorem extractEmail_twice (raw r : jsstring) :
  extractEmail (VStr raw) = Normal r ->
  extractEmail (VStr r) = Normal (trim r)
  /\ ((~ exists pre addr post, AngleForm.bracketed (trim raw) pre addr post) ->
      extractEmail (VStr r) = Normal r).
Proof.
  rewrite !extractEmail_string. intros H.
  destruct (AngleRegex.search (trim raw)) as [c|] eqn:E;
    inversion H; subst r; clear H.
  - destruct (AngleRegexFacts.search_sound _ E) as (pre & post & Hb & Hg).
    rewrite (capture_has_no_match _ Hg). split; [reflexivity|].
    intros Hnone. exfalso. apply Hnone. eauto.
  - rewrite TrimFacts.trim_idempotent, E. split; reflexivity.
Qed.

Lemma extractEmail_twice_witness :
  extractEmail (VStr (u " a@b.com ")) = Normal (trim (u " a@b.com "))
  /\ ((~ exists pre addr post,
          AngleForm.bracketed (trim (u "Name < a@b.com >")) pre addr post) ->
      extractEmail (VStr (u " a@b.com ")) = Normal (u " a@b.com ")).
Proof.
  apply (@extractEmail_twice (u "Name < a@b.com >") (u " a@b.com ")).
  reflexivity.
Defined.

(** ** Failures of the read routes *)

(** X17.  The two read routes never change the state.  The listing
    answers 200 or 500, the single-message route 200, 404 or 500, and
    each answers 500 exactly when the identifier does not cast to an
    [ObjectId] or the store does not answer. *)
Theorem read_routes_failure {mongoose : Mongoose} o id w :
  exists resp detail,
    listMessages o id w = (Normal resp, w)
    /\ getMessage o id w = (Normal detail, w)
    /\ (status_code resp = 500 <->
        castObjectId id = None \/ read_ok o = false)
    /\ (detail_status detail = 500 <->
        castObjectId id = None \/ read_ok o = false)
    /\ (status_code resp = 200 \/ status_code resp = 500)
    /\ (detail_status detail = 200 \/ detail_status detail = 404
        \/ detail_status detail = 500).
Proof.
  unfold listMessages, getMessage, try_catch, bind, ret,
    Message.find_sorted, Message.findById.
  destruct (castObjectId id) as [oid|].
  - destruct (read_ok o); cbn [negb].
    + destruct (find (fun m => JsString.eqb m.(messageSchema._id) oid)
                     (messages w));
        do 2 eexists; (split; [reflexivity|]); (split; [reflexivity|]);
        cbn; repeat split; try discriminate; auto;
        intros [H|H]; discriminate.
    + do 2 eexists. split; [reflexivity|]. split; [reflexivity|].
      cbn. repeat split; auto.
  - do 2 eexists. split; [reflexivity|]. split; [reflexivity|].
    cbn. repeat split; auto.
Qed.

(** ** Repeated deliveries *)

(** X18.  The webhook does not deduplicate: when a payload has been
    stored once, handling the same payload again, with a store that
    answers, stores a second message for the same mailbox with the same
    addresses and contents. *)
Theorem inboundEmail_no_dedup {mongoose : Mongoose}
    o1 body w w1 m1 o2 :
  inboundEmail o1 body w
  = (Normal {| status_code := 200; json := JStatus "ok" |}, w1) ->
  messages w1 = messages w ++ [m1] ->
  read_ok o2 = true -> write_ok o2 = true ->
  exists m2 w2,
    inboundEmail o2 body w1
    = (Normal {| status_code := 200; json := JStatus "ok" |}, w2)
    /\ messages w2 = messages w ++ [m1; m2]
    /\ m2.(messageSchema.mailboxId) = m1.(messageSchema.mailboxId)
    /\ m2.(messageSchema.to) = m1.(messageSchema.to)
    /\ m2.(messageSchema.from) = m1.(messageSchema.from)
    /\ m2.(messageSchema.subject) = m1.(messageSchema.subject)
    /\ m2.(messageSchema.text) = m1.(messageSchema.text)
    /\ m2.(messageSchema.html) = m1.(messageSchema.html)
    /\ m2.(messageSchema._id) = objectId o2
    /\ m2.(messageSchema.receivedAt) = date_now o2 0.
Proof.
  intros H Hm Hr Hw. apply inboundEmail_inv in H.
  assert (Hmb : mailboxes w1 = mailboxes w).
  { destruct H; reflexivity. }
  destruct (@Outcome_new_message _ _ _ _ _ _ _ H Hm)
    as (toEmail & fromEmail & mb & s & t & h
        & Hto & Hne & Hfrom & Hf & Hc & -> & _ & _).
  rewrite <- Hmb in Hf.
  pose proof (@inboundEmail_found _ o2 body w1 toEmail fromEmail s t h mb
                Hto Hne Hfrom Hr Hw Hc Hf) as Hrun.
  do 2 eexists. split; [exact Hrun|].
  cbn [messages]. rewrite Hm, <- app_assoc.
  split; [reflexivity|]. repeat split.
Qed.

Lemma inboundEmail_no_dedup_witness :
  exists m2 w2,
    inboundEmail Sample.later_oracle Sample.hi_payload Sample.after_hi
    = (Normal {| status_code := 200; json := JStatus "ok" |}, w2)
    /\ messages w2 = [] ++ [Sample.ingested; m2]
    /\ m2.(messageSchema.mailboxId) = Sample.ingested.(messageSchema.mailboxId)
    /\ m2.(messageSchema.to) = Sample.ingested.(messageSchema.to)
    /\ m2.(messageSchema.from) = Sample.ingested.(messageSchema.from)
    /\ m2.(messageSchema.subject) = Sample.ingested.(messageSchema.subject)
    /\ m2.(messageSchema.text) = Sample.ingested.(messageSchema.text)
    /\ m2.(messageSchema.html) = Sample.ingested.(messageSchema.html)
    /\ m2.(messageSchema._id) = objectId Sample.later_oracle
    /\ m2.(messageSchema.receivedAt) = date_now Sample.later_oracle 0.
Proof.
  apply (@inboundEmail_no_dedup mongoose_casts Sample.oracle
           Sample.hi_payload (Sample.world [Sample.mailbox])
           Sample.after_hi Sample.ingested Sample.later_oracle).
  - vm_compute. reflexivity.
  - reflexivity.
  - reflexivity.
  - reflexivity.
Defined.

(** ** What normalisation returns *)

Module TrimSpec.



End TrimSpec.





(** The values outside the amended claim that are falsy normalise to
    the empty string. *)
Lemma extractEmail_falsy (v : value) :
  truthy v = false -> extractEmail v = Normal [].
Proof. intros H. rewrite extractEmail_value, H. reflexivity. Qed.
